(** * Dictionary-Processor: a shallow embedding of the translation pipelines

    The repository holds four Python programs:
    - [main.py]     RealTimeJsonTranslator, term-bank files, googletrans,
                    tenacity retry, MD5-keyed cache;
    - [index.py]    RealTimeJsonTranslator, term-bank files, argostranslate,
                    work queue with worker threads, MD5-keyed cache;
    - [master.py]   DictionaryProcessor, word entries, googletrans,
                    cache keyed by the raw meaning;
    - [master_2.py] DictionaryProcessor, word entries, argostranslate,
                    batches with a progress file.

    Python values are modelled as follows.  A [str] is the list of its code
    points ([pystr]); a [dict] used as a cache is a [gmap]; a JSON document
    is the inductive type [json]; exceptions are the enumeration [exn] and a
    computation that may raise returns a [result]; the translation provider,
    the file system's write faults and the thread scheduler are oracles that
    the embedded functions take as arguments. *)

From Stdlib Require Import ZArith List Bool Lia String Ascii.
From stdpp Require Import base option list gmap.
Import ListNotations.

Local Open Scope Z_scope.

(** ** Python strings *)

Module Py.

(** A Python [str]: the sequence of its Unicode code points. *)
Abbreviation pystr := (list Z).

(** An ASCII literal of the source, as a [pystr]. *)
Definition lit (s : string) : pystr :=
  map (fun a => Z.of_N (N_of_ascii a)) (list_ascii_of_string s).

(** [str.isspace] on one character (CPython's [_PyUnicode_IsWhitespace]). *)
Definition isspace (c : Z) : bool :=
  ((0x09 <=? c) && (c <=? 0x0D)) || ((0x1C <=? c) && (c <=? 0x20))
  || (c =? 0x85) || (c =? 0xA0) || (c =? 0x1680)
  || ((0x2000 <=? c) && (c <=? 0x200A))
  || (c =? 0x2028) || (c =? 0x2029) || (c =? 0x202F) || (c =? 0x205F)
  || (c =? 0x3000).

(** [str.lstrip()], [str.rstrip()] and [str.strip()] without argument. *)
Fixpoint lstrip (s : pystr) : pystr :=
  match s with
  | c :: s' => if isspace c then lstrip s' else s
  | [] => []
  end.

Definition rstrip (s : pystr) : pystr := rev (lstrip (rev s)).

Definition strip (s : pystr) : pystr := rstrip (lstrip s).

(** Truth value of a [str]: the empty string is false. *)
Definition truthy (s : pystr) : bool :=
  match s with [] => false | _ => true end.

(** [not text.strip()]: the string is empty or holds only whitespace. *)
Definition blank (s : pystr) : bool := negb (truthy (strip s)).

(** [str.isascii()]: every character is below 128 (true on [""]). *)
Definition isascii (s : pystr) : bool := forallb (fun c => c <? 128) s.

(** [any(ord(char) < 128 for char in text)]. *)
Definition any_ascii (s : pystr) : bool := existsb (fun c => c <? 128) s.

(** A lowercase hexadecimal digit, [0-9a-f]. *)
Definition is_hex (c : Z) : bool :=
  ((48 <=? c) && (c <=? 57)) || ((97 <=? c) && (c <=? 102)).

(** [str.encode()]: UTF-8.  A surrogate makes Python raise UnicodeEncodeError;
    so does, here, a number that is no code point at all. *)
Definition encode_char (c : Z) : option (list Z) :=
  if (c <? 0) then None
  else if (c <? 0x80) then Some [c]
  else if (c <? 0x800) then
    Some [Z.lor 0xC0 (Z.shiftr c 6); Z.lor 0x80 (Z.land c 0x3F)]
  else if (c <? 0x10000) then
    if (0xD800 <=? c) && (c <=? 0xDFFF) then None
    else Some [Z.lor 0xE0 (Z.shiftr c 12);
               Z.lor 0x80 (Z.land (Z.shiftr c 6) 0x3F);
               Z.lor 0x80 (Z.land c 0x3F)]
  else if (c <? 0x110000) then
    Some [Z.lor 0xF0 (Z.shiftr c 18);
          Z.lor 0x80 (Z.land (Z.shiftr c 12) 0x3F);
          Z.lor 0x80 (Z.land (Z.shiftr c 6) 0x3F);
          Z.lor 0x80 (Z.land c 0x3F)]
  else None.

Fixpoint encode (s : pystr) : option (list Z) :=
  match s with
  | [] => Some []
  | c :: s' =>
      match encode_char c, encode s' with
      | Some b, Some bs => Some (b ++ bs)
      | _, _ => None
      end
  end.

End Py.

(** ** hashlib.md5 (RFC 1321) on a list of bytes *)

Module MD5.

Definition mask32 (x : Z) : Z := Z.land x 0xFFFFFFFF.
Definition add32 (x y : Z) : Z := mask32 (x + y).
Definition not32 (x : Z) : Z := Z.lxor (mask32 x) 0xFFFFFFFF.
Definition rotl32 (x c : Z) : Z :=
  mask32 (Z.lor (Z.shiftl x c) (Z.shiftr (mask32 x) (32 - c))).

Definition K : list Z :=
  [ 0xd76aa478; 0xe8c7b756; 0x242070db; 0xc1bdceee; 0xf57c0faf; 0x4787c62a;
    0xa8304613; 0xfd469501; 0x698098d8; 0x8b44f7af; 0xffff5bb1; 0x895cd7be;
    0x6b901122; 0xfd987193; 0xa679438e; 0x49b40821; 0xf61e2562; 0xc040b340;
    0x265e5a51; 0xe9b6c7aa; 0xd62f105d; 0x02441453; 0xd8a1e681; 0xe7d3fbc8;
    0x21e1cde6; 0xc33707d6; 0xf4d50d87; 0x455a14ed; 0xa9e3e905; 0xfcefa3f8;
    0x676f02d9; 0x8d2a4c8a; 0xfffa3942; 0x8771f681; 0x6d9d6122; 0xfde5380c;
    0xa4beea44; 0x4bdecfa9; 0xf6bb4b60; 0xbebfbc70; 0x289b7ec6; 0xeaa127fa;
    0xd4ef3085; 0x04881d05; 0xd9d4d039; 0xe6db99e5; 0x1fa27cf8; 0xc4ac5665;
    0xf4292244; 0x432aff97; 0xab9423a7; 0xfc93a039; 0x655b59c3; 0x8f0ccc92;
    0xffeff47d; 0x85845dd1; 0x6fa87e4f; 0xfe2ce6e0; 0xa3014314; 0x4e0811a1;
    0xf7537e82; 0xbd3af235; 0x2ad7d2bb; 0xeb86d391 ].

Definition S : list Z :=
  [ 7; 12; 17; 22; 7; 12; 17; 22; 7; 12; 17; 22; 7; 12; 17; 22;
    5; 9; 14; 20; 5; 9; 14; 20; 5; 9; 14; 20; 5; 9; 14; 20;
    4; 11; 16; 23; 4; 11; 16; 23; 4; 11; 16; 23; 4; 11; 16; 23;
    6; 10; 15; 21; 6; 10; 15; 21; 6; 10; 15; 21; 6; 10; 15; 21 ].

(** The four chaining words A, B, C, D. *)
Record chain := Chain { cA : Z; cB : Z; cC : Z; cD : Z }.

Definition init : chain :=
  Chain 0x67452301 0xefcdab89 0x98badcfe 0x10325476.

(** One of the 64 operations on the message words [M] of a block. *)
Definition step (M : list Z) (st : chain) (i : nat) : chain :=
  let '(Chain a b c d) := st in
  let '(f, g) :=
    if (i <? 16)%nat then (Z.lor (Z.land b c) (Z.land (not32 b) d), i)
    else if (i <? 32)%nat then
      (Z.lor (Z.land d b) (Z.land (not32 d) c), ((5 * i + 1) mod 16)%nat)
    else if (i <? 48)%nat then
      (Z.lxor b (Z.lxor c d), ((3 * i + 5) mod 16)%nat)
    else (Z.lxor c (Z.lor b (not32 d)), ((7 * i) mod 16)%nat) in
  let f' := mask32 (f + a + nth i K 0 + nth g M 0) in
  Chain d (add32 b (rotl32 f' (nth i S 0))) b c.

(** Little-endian word of four bytes, and back. *)
Definition word_of_bytes (bs : list Z) : Z :=
  fold_right (fun b acc => b + 256 * acc) 0 bs.

Fixpoint bytes_of_word (n : nat) (w : Z) : list Z :=
  match n with
  | O => []
  | Datatypes.S n' => Z.land w 0xFF :: bytes_of_word n' (Z.shiftr w 8)
  end.

Definition words_of_block (blk : list Z) : list Z :=
  map (fun j => word_of_bytes (take 4 (drop (4 * j) blk))) (seq 0 16).

Definition compress (st : chain) (blk : list Z) : chain :=
  let st' := fold_left (step (words_of_block blk)) (seq 0 64) st in
  Chain (add32 (cA st) (cA st')) (add32 (cB st) (cB st'))
        (add32 (cC st) (cC st')) (add32 (cD st) (cD st')).

(** Padding: a 1 bit, zeros up to 56 modulo 64, the bit length on 8 bytes. *)
Definition pad (msg : list Z) : list Z :=
  let n := Z.of_nat (length msg) in
  msg ++ [0x80] ++ repeat 0 (Z.to_nat ((55 - n) mod 64))
      ++ bytes_of_word 8 ((8 * n) mod 2 ^ 64).

Definition blocks (bs : list Z) : list (list Z) :=
  map (fun j => take 64 (drop (64 * j) bs)) (seq 0 (length bs / 64)).

Definition digest (msg : list Z) : list Z :=
  let st := fold_left compress (blocks (pad msg)) init in
  bytes_of_word 4 (cA st) ++ bytes_of_word 4 (cB st)
    ++ bytes_of_word 4 (cC st) ++ bytes_of_word 4 (cD st).

(** [hexdigest()]: two lowercase hexadecimal digits per byte. *)
Definition hexdigit (n : Z) : Z := if n <? 10 then 48 + n else 87 + n.

Definition hex_of_byte (b : Z) : list Z :=
  [hexdigit (Z.shiftr b 4); hexdigit (Z.land b 0xF)].

Definition hexdigest (msg : list Z) : Py.pystr :=
  concat (map hex_of_byte (digest msg)).

End MD5.

Import Py.

(** ** Exceptions, results, the provider *)

(** The exceptions that the programs can meet.  All are subclasses of
    [Exception]; [ProviderError] stands for whatever the translation provider
    raises, [RetryError] is tenacity's. *)
Inductive exn :=
| UnicodeEncodeError
| UnicodeDecodeError
| JSONDecodeError
| FileNotFoundError
| TypeError
| KeyError
| ValueError
| ZeroDivisionError
| ProviderError
| RetryError.

Inductive result (A : Type) :=
| Ok (a : A)
| Raise (e : exn).
Arguments Ok {A} a.
Arguments Raise {A} e.

(** The external translation provider ([Translator().translate(..).text],
    [argostranslate.translate.translate]): the answer to the [n]-th call made
    so far on a given text, [None] when that call raises. *)
Definition provider := nat -> pystr -> option pystr.

(** A JSON file on disk, as [open] and [json.load] see it. *)
Inductive file (A : Type) :=
| Missing                (* open raises FileNotFoundError *)
| Undecodable            (* the bytes are not UTF-8: read raises UnicodeDecodeError *)
| Malformed              (* the text is not JSON: json.load raises JSONDecodeError *)
| Holds (a : A).
Arguments Missing {A}.
Arguments Undecodable {A}.
Arguments Malformed {A}.
Arguments Holds {A} a.

(** [with open(path, 'r', encoding='utf-8') as f: return json.load(f)] *)
Definition json_load {A} (f : file A) : result A :=
  match f with
  | Missing => Raise FileNotFoundError
  | Undecodable => Raise UnicodeDecodeError
  | Malformed => Raise JSONDecodeError
  | Holds a => Ok a
  end.

(** [hashlib.md5(content.encode()).hexdigest()], shared by main.py and
    index.py ([get_content_hash] on a [str]; the callers pass nothing else). *)
Definition get_content_hash (content : pystr) : result pystr :=
  match encode content with
  | Some bytes => Ok (MD5.hexdigest bytes)
  | None => Raise UnicodeEncodeError
  end.

(** ** tenacity *)

Module Tenacity.

(** [wait_exponential(multiplier, min, max)] after attempt [attempt_number]:
    [max(max(0, min), min(multiplier * 2 ** (attempt_number - 1), max))].
    (Older releases of tenacity take [2 ** attempt_number]; with [min=4] and
    [max=10] both give 4 after the first and after the second attempt.) *)
Definition wait_exponential (multiplier min max attempt_number : Z) : Z :=
  Z.max (Z.max 0 min) (Z.min (multiplier * 2 ^ (attempt_number - 1)) max).

Section Retry.
Context {S A : Type}.
Variable sleep : Z -> S -> S.
Variable wait : Z -> Z.
Variable body : S -> result A * S.

(** [@retry(stop=stop_after_attempt(n), wait=wait)]: call the function; when
    it raises and this was attempt [n], raise RetryError; otherwise sleep
    and call again.  [remaining] counts the attempts still allowed. *)
Fixpoint attempts (remaining : nat) (attempt_number : Z) (st : S)
  : result A * S :=
  match remaining with
  | O => (Raise RetryError, st)
  | Datatypes.S r =>
      match body st with
      | (Ok v, st') => (Ok v, st')
      | (Raise _, st') =>
          match r with
          | O => (Raise RetryError, st')
          | Datatypes.S _ =>
              attempts r (attempt_number + 1) (sleep (wait attempt_number) st')
          end
      end
  end.

Definition retry (stop_after_attempt : nat) : S -> result A * S :=
  attempts stop_after_attempt 1.
End Retry.

End Tenacity.

(** ** Computations that read and write a state and may raise *)

Definition M (S A : Type) : Type := S -> result A * S.

Definition ret {S A} (a : A) : M S A := fun st => (Ok a, st).

Definition raise {S A} (e : exn) : M S A := fun st => (Raise e, st).

Definition bind {S A B} (m : M S A) (k : A -> M S B) : M S B :=
  fun st =>
    match m st with
    | (Ok a, st') => k a st'
    | (Raise e, st') => (Raise e, st')
    end.

Declare Scope py_scope.
Delimit Scope py_scope with py.
Notation "x <- m ;; k" := (bind m (fun x => k))
  (at level 100, m at next level, right associativity) : py_scope.
Notation "m ;;; k" := (bind m (fun _ => k))
  (at level 100, right associativity) : py_scope.
Local Open Scope py_scope.

Section Loops.
Context {S A B : Type}.
Variable f : A -> M S B.

(** A [for] loop whose body replaces each element in place. *)
Fixpoint mapM (l : list A) : M S (list B) :=
  match l with
  | [] => ret []
  | x :: rest => y <- f x ;; ys <- mapM rest ;; ret (y :: ys)
  end.
End Loops.

(** *** Statements about computations *)

Section Statements.
Context {S : Type}.

(** [m] keeps the property [P] of the state, whether it returns or raises. *)
Definition preserves {A} (P : S -> Prop) (m : M S A) : Prop :=
  forall st, P st -> P (snd (m st)).




End Statements.

Section Outcomes.
Context {S : Type}.

(** From a state in [P], [m] returns and leaves the state in [P], or raises
    and leaves it in [Q]. *)
Definition stops {A} (P Q : S -> Prop) (m : M S A) : Prop :=
  forall st, P st ->
    match m st with
    | (Ok _, st') => P st'
    | (Raise _, st') => Q st'
    end.

End Outcomes.

(** ** JSON documents (main.py, index.py) *)

(** What [json.load] returns.  A [dict] keeps its keys in order and holds a
    key once; numbers are never looked at. *)
#[warnings="-register-all"]
Inductive json :=
| JNull
| JBool (b : bool)
| JNum (n : Z)
| JStr (s : pystr)
| JArr (items : list json)
| JObj (members : list (pystr * json)).

(** What a program does besides computing, in the order in which it
    happens: calls of the provider, sleeps, and writes of a whole document
    to the output file. *)
Inductive event :=
| Call (text : pystr)
| Sleep (secs : Z)
| Write (data : json).

Definition is_call (e : event) : bool :=
  match e with Call _ => true | _ => false end.

(** Number of provider calls made so far. *)
Definition ncalls (log : list event) : nat := length (filter is_call log).

(** The texts sent to the provider, oldest first. *)
Definition calls (log : list event) : list pystr :=
  omap (fun e => match e with Call t => Some t | _ => None end) log.

(** The document written last, if any. *)
Definition last_write (log : list event) : option json :=
  last (omap (fun e => match e with Write d => Some d | _ => None end) log).

(** [d.get(key)] / [key in d] / [d[key]] on the members of a dict. *)
Fixpoint member (key : pystr) (ms : list (pystr * json)) : option json :=
  match ms with
  | [] => None
  | (k, v) :: rest => if bool_decide (k = key) then Some v else member key rest
  end.

(** [d[key] = v] on a key that is present. *)
Fixpoint set_member (key : pystr) (v : json) (ms : list (pystr * json))
  : list (pystr * json) :=
  match ms with
  | [] => []
  | (k, w) :: rest =>
      if bool_decide (k = key) then (k, v) :: rest
      else (k, w) :: set_member key v rest
  end.

Section Alter.
Context {S : Type}.
Variable f : json -> M S json.
Variable key : pystr.

(** [if key in d: d[key] = f(d[key])] *)
Fixpoint alterM (ms : list (pystr * json)) : M S (list (pystr * json)) :=
  match ms with
  | [] => ret []
  | (k, v) :: rest =>
      if bool_decide (k = key) then v' <- f v ;; ret ((k, v') :: rest)
      else rest' <- alterM rest ;; ret ((k, v) :: rest')
  end.
End Alter.

(** Loops over values that are mutated in place while the whole document is
    written out: the loop body is given, besides the element, the function
    that rebuilds the enclosing value around the element's current value.
    The [bool] is the [modified] flag of the source. *)
Section InPlace.
Context {S : Type}.

Section Each.
Variable f : json -> (json -> list json) -> M S (bool * json).

(** [for item in l], [done] being the elements already visited. *)
Fixpoint each_in_place (done : list json) (modified : bool)
  (todo : list json) : M S (bool * list json) :=
  match todo with
  | [] => ret (modified, done)
  | item :: rest =>
      r <- f item (fun x => done ++ x :: rest) ;;
      each_in_place (done ++ [snd r]) (modified || fst r) rest
  end.
End Each.

Section Member.
Variable f : json -> (json -> list (pystr * json)) -> M S (bool * json).
Variable key : pystr.

(** [if key in d: d[key] = f(d[key])], [before] being the members
    before the one looked at. *)
Fixpoint member_in_place (before ms : list (pystr * json))
  : M S (bool * list (pystr * json)) :=
  match ms with
  | [] => ret (false, before)
  | (k, v) :: rest =>
      if bool_decide (k = key) then
        r <- f v (fun x => before ++ (k, x) :: rest) ;;
        ret (fst r, before ++ (k, snd r) :: rest)
      else member_in_place (before ++ [(k, v)]) rest
  end.
End Member.
End InPlace.

(** [needle in haystack] on two strings. *)
Fixpoint starts_with (needle s : pystr) : bool :=
  match needle, s with
  | [], _ => true
  | c :: needle', d :: s' => (c =? d) && starts_with needle' s'
  | _ :: _, [] => false
  end.

Fixpoint substring (needle s : pystr) : bool :=
  starts_with needle s ||
  match s with
  | [] => false
  | _ :: s' => substring needle s'
  end.

(** ['type' in item and item['type'] == 'structured-content'], for any JSON
    value [item]. *)
Definition is_structured_content (item : json) : result bool :=
  match item with
  | JObj ms =>
      Ok match member (lit "type") ms with
         | Some (JStr t) => bool_decide (t = lit "structured-content")
         | _ => false
         end
  | JArr l =>
      (* membership holds: [item['type']] on a list raises TypeError *)
      if existsb (fun x => match x with
                           | JStr s => bool_decide (s = lit "type")
                           | _ => false
                           end) l
      then Raise TypeError else Ok false
  | JStr s =>
      (* substring test holds: [item['type']] on a str raises TypeError *)
      if substring (lit "type") s then Raise TypeError else Ok false
  | JNull | JBool _ | JNum _ => Raise TypeError   (* not iterable *)
  end.

(** [len(entry) >= 6 and isinstance(entry[5], list)]: [Ok (Some items)] with
    [entry[5]] when the test holds, [Ok None] when it fails. *)
Definition sixth_field (entry : json) : result (option (list json)) :=
  match entry with
  | JArr fields =>
      match fields !! 5%nat with
      | Some (JArr items) => Ok (Some items)
      | _ => Ok None
      end
  | JStr _ => Ok None                      (* entry[5] is a str *)
  | JObj ms =>
      if (6 <=? length ms)%nat then Raise KeyError else Ok None
  | JNull | JBool _ | JNum _ => Raise TypeError   (* no len() *)
  end.

(** [for entry in data]: the entries met; a dict gives its keys, a str its
    characters. *)
Definition iterate (data : json) : result (list json) :=
  match data with
  | JArr l => Ok l
  | JObj ms => Ok (map (fun kv => JStr (fst kv)) ms)
  | JStr s => Ok (map (fun c => JStr [c]) s)
  | JNull | JBool _ | JNum _ => Raise TypeError
  end.

(** *** The leaves of a document

    What the two tree walkers (main.py's [process_file] with
    [translate_content_list], index.py's [_process_content] with
    [_process_content_item]) have in common, as pure functions: the texts
    that they pass to [translate_text], in the order of the visit, and the
    document in which each of these texts is replaced by its image under
    [g]. *)

Fixpoint item_leaves (item : json) : list pystr :=
  match item with
  | JObj members =>
      (fix go (ms : list (pystr * json)) : list pystr :=
         match ms with
         | [] => []
         | (k, v) :: rest =>
             if bool_decide (k = lit "content") then
               match v with
               | JStr s => [s]
               | JArr subs => flat_map item_leaves subs
               | _ => []
               end
             else go rest
         end) members
  | _ => []
  end.

Fixpoint map_item (g : pystr -> pystr) (item : json) : json :=
  match item with
  | JObj members =>
      JObj ((fix go (ms : list (pystr * json)) : list (pystr * json) :=
               match ms with
               | [] => []
               | (k, v) :: rest =>
                   if bool_decide (k = lit "content") then
                     (k, match v with
                         | JStr s => JStr (g s)
                         | JArr subs => JArr (map (map_item g) subs)
                         | _ => v
                         end) :: rest
                   else (k, v) :: go rest
               end) members)
  | _ => item
  end.

(** The content items of a structured-content element of [entry[5]]. *)
Definition content_items (item : json) : list json :=
  match is_structured_content item, item with
  | Ok true, JObj ms =>
      match member (lit "content") ms with
      | Some (JArr cs) => cs
      | _ => []
      end
  | _, _ => []
  end.

Definition set_content_items (item : json) (cs : list json) : json :=
  match is_structured_content item, item with
  | Ok true, JObj ms =>
      match member (lit "content") ms with
      | Some (JArr _) => JObj (set_member (lit "content") (JArr cs) ms)
      | _ => item
      end
  | _, _ => item
  end.

Definition entry_items (entry : json) : list json :=
  match sixth_field entry with
  | Ok (Some items) => items
  | _ => []
  end.

Definition doc_entries (data : json) : list json :=
  match iterate data with
  | Ok entries => entries
  | Raise _ => []
  end.

Definition entry_leaves (entry : json) : list pystr :=
  flat_map (fun item => flat_map item_leaves (content_items item))
    (entry_items entry).

Definition doc_leaves (data : json) : list pystr :=
  flat_map entry_leaves (doc_entries data).

Definition map_entry (g : pystr -> pystr) (entry : json) : json :=
  match sixth_field entry, entry with
  | Ok (Some items), JArr fields =>
      JArr (<[5%nat :=
               JArr (map (fun item =>
                            set_content_items item
                              (map (map_item g) (content_items item)))
                       items)]> fields)
  | _, _ => entry
  end.

Definition map_doc (g : pystr -> pystr) (data : json) : json :=
  match data with
  | JArr entries => JArr (map (map_entry g) entries)
  | _ => data
  end.





(** What a lookup in the cache [c] makes of a text: [translate_text] of
    index.py without its queue. *)
Definition resolve (c : gmap pystr pystr) (text : pystr) : pystr :=
  if blank text then text
  else match get_content_hash text with
       | Ok h => default text (c !! h)
       | Raise _ => text
       end.

(** *** Directories

    [process_directory] of main.py and of index.py goes through
    [os.listdir(self.input_directory)]: the names in the order in which the
    system gives them, each with the file found under that name.  The output
    directory is known by what it holds under each name. *)

(** [s.endswith(suffix)] *)
Definition ends_with (suffix s : pystr) : bool :=
  starts_with (rev suffix) (rev s).

(** [filename.startswith('term_bank_') and filename.endswith('.json')] *)
Definition is_term_bank (filename : pystr) : bool :=
  starts_with (lit "term_bank_") filename && ends_with (lit ".json") filename.

Definition directory := pystr -> file json.

Definition put_file (name : pystr) (f : file json) (dir : directory)
  : directory :=
  fun n => if bool_decide (n = name) then f else dir n.

(** ** main.py: RealTimeJsonTranslator (googletrans, retry) *)

Module Main.

Record state := State {
  translation_cache : gmap pystr pystr;       (* keyed by the MD5 of the text *)
  cache_file : file (gmap pystr pystr);       (* .translation_cache.json *)
  log : list event
}.

Definition record (e : event) (st : state) : state :=
  State (translation_cache st) (cache_file st) (log st ++ [e]).

(** [load_translation_cache]: [os.path.exists], then a bare [except]. *)
Definition load_translation_cache (f : file (gmap pystr pystr))
  : result (gmap pystr pystr) :=
  match f with
  | Missing => Ok ∅
  | _ => match json_load f with
         | Ok c => Ok c
         | Raise _ => Ok ∅
         end
  end.

(** [self.translation_cache[content_hash] = translated_text] followed by
    [self.save_translation_cache()]. *)
Definition cache_and_save (h v : pystr) (st : state) : state :=
  let c := <[h := v]> (translation_cache st) in
  State c (Holds c) (log st).

(** [update_json_file]: the whole document is written to the output file. *)
Definition update_json_file (current_data : json) : M state unit :=
  fun st => (Ok tt, record (Write current_data) st).

(** The body of [translate_text], inside its [try]; the [except] clause prints
    and raises the exception again. *)
Definition translate_text_body (p : provider) (text : pystr) (st : state)
  : result pystr * state :=
  if blank text then (Ok text, st)
  else
    match get_content_hash text with
    | Raise e => (Raise e, st)
    | Ok content_hash =>
        match translation_cache st !! content_hash with
        | Some v => (Ok v, st)
        | None =>
            if isascii text then
              match p (ncalls (log st)) text with
              | None => (Raise ProviderError, record (Call text) st)
              | Some translated_text =>
                  (Ok translated_text,
                   cache_and_save content_hash translated_text
                     (record (Call text) st))
              end
            else (Ok text, st)
        end
    end.

(** [@retry(stop=stop_after_attempt(3),
            wait=wait_exponential(multiplier=1, min=4, max=10))] *)
Definition translate_text (p : provider) (text : pystr) : M state pystr :=
  Tenacity.retry (fun secs => record (Sleep secs))
    (Tenacity.wait_exponential 1 4 10)
    (translate_text_body p text) 3.

Section Walk.
Variable p : provider.

(** The body of the loop of [translate_content_list] on one [item]; [ctx]
    gives the whole document [data] around the item's current value. *)
Fixpoint translate_item (item : json) (ctx : json -> json)
  : M state (bool * json) :=
  match item with
  | JObj members =>
      r <- member_in_place
             (fun content around =>
                match content with
                | JStr original_content =>
                    s' <- translate_text p original_content ;;
                    ret (negb (bool_decide (original_content = s')), JStr s')
                | JArr subs =>
                    (* the nested call of [translate_content_list] *)
                    r <- each_in_place
                           (fun sub around_sub =>
                              translate_item sub
                                (fun x =>
                                   ctx (JObj (around (JArr (around_sub x))))))
                           [] false subs ;;
                    (if fst r
                     then update_json_file (ctx (JObj (around (JArr (snd r)))))
                     else ret tt) ;;;
                    ret (fst r, JArr (snd r))
                | _ => ret (false, content)
                end)
             (lit "content") [] members ;;
      ret (fst r, JObj (snd r))
  | _ => ret (false, item)
  end.

(** [translate_content_list(content_list, input_file, data, entry_index)],
    on a list; [ctx] gives [data] around the list's current value. *)
Definition translate_content_list (content_list : list json)
  (ctx : list json -> json) : M state (bool * list json) :=
  r <- each_in_place
         (fun item around => translate_item item (fun x => ctx (around x)))
         [] false content_list ;;
  (if fst r then update_json_file (ctx (snd r)) else ret tt) ;;;
  ret r.

(** [for content_item in item['content']:
       self.translate_content_list([content_item], ..)]:
    the one-element list is a fresh list around the same item. *)
Definition process_content_item (content_item : json) (ctx : json -> json)
  : M state (bool * json) :=
  r <- translate_content_list [content_item]
         (fun l => ctx (match l with [x] => x | _ => content_item end)) ;;
  ret (fst r, match snd r with [x] => x | _ => content_item end).

(** The body of [for item in entry[5]]. *)
Definition process_item (item : json) (ctx : json -> json)
  : M state (bool * json) :=
  match is_structured_content item with
  | Raise e => raise e
  | Ok false => ret (false, item)
  | Ok true =>
      match item with
      | JObj ms =>
          item' <-
            match member (lit "content") ms with
            | Some (JArr cs) =>
                r <- each_in_place
                       (fun c around =>
                          process_content_item c
                            (fun x =>
                               ctx (JObj (set_member (lit "content")
                                            (JArr (around x)) ms))))
                       [] false cs ;;
                ret (JObj (set_member (lit "content") (JArr (snd r)) ms))
            | _ => ret item
            end ;;
          update_json_file (ctx item') ;;;
          ret (false, item')
      | _ => ret (false, item)
      end
  end.

(** [entry[5] = items] on a list entry. *)
Definition set_sixth (entry : json) (items : list json) : json :=
  match entry with
  | JArr fields => JArr (<[5%nat := JArr items]> fields)
  | _ => entry
  end.

(** The body of [for entry_index, entry in enumerate(data)]. *)
Definition process_entry (entry : json) (ctx : json -> json)
  : M state (bool * json) :=
  match sixth_field entry with
  | Raise e => raise e
  | Ok None => ret (false, entry)
  | Ok (Some items) =>
      r <- each_in_place
             (fun item around =>
                process_item item (fun x => ctx (set_sixth entry (around x))))
             [] false items ;;
      ret (false, set_sixth entry (snd r))
  end.

Definition set_entries (data : json) (entries : list json) : json :=
  match data with JArr _ => JArr entries | _ => data end.

(** The loop of [process_file] over the document. *)
Definition process_entries (data : json) : M state json :=
  match iterate data with
  | Raise e => raise e
  | Ok entries =>
      r <- each_in_place
             (fun entry around =>
                process_entry entry (fun x => set_entries data (around x)))
             [] false entries ;;
      ret (set_entries data (snd r))
  end.

(** [process_file]: every exception is caught and printed.  The output file
    is given as it is found and returned as it is left: it is created with
    the document as read when it does not exist, and holds afterwards the
    document that [update_json_file] wrote last. *)
Definition process_file (input_file : file json) (output_file : file json)
  (st : state) : state * file json :=
  match json_load input_file with
  | Raise _ => (st, output_file)
  | Ok data =>
      let output0 :=
        match output_file with
        | Missing => Holds data
        | _ => output_file
        end in
      let st' := snd (process_entries data st) in
      (st',
       match last_write (drop (length (log st)) (log st')) with
       | Some written => Holds written
       | None => output0
       end)
  end.

(** [process_directory]: the files named [term_bank_*.json], each followed
    by [time.sleep(1)]. *)
Fixpoint process_directory (listing : list (pystr * file json))
  (out : directory) (st : state) : state * directory :=
  match listing with
  | [] => (st, out)
  | (filename, input_file) :: rest =>
      if is_term_bank filename then
        let '(st1, written) := process_file input_file (out filename) st in
        process_directory rest (put_file filename written out)
          (record (Sleep 1) st1)
      else process_directory rest out st
  end.
End Walk.

(** The cache is [c], its file is [cf], and the calls made are [k]. *)
Definition untouched (c : gmap pystr pystr) (cf : file (gmap pystr pystr))
  (k : list pystr) (st : state) : Prop :=
  translation_cache st = c /\ cache_file st = cf /\ calls (log st) = k.

(** If the text [t] is translatable (not blank, all ASCII), the cache [c]
    has an entry for it. *)
Definition settled (c : gmap pystr pystr) (t : pystr) : Prop :=
  blank t = false -> isascii t = true ->
  exists h, get_content_hash t = Ok h /\ is_Some (c !! h).

(** [__init__]: the cache is loaded from the output directory. *)
Definition init (cache_f : file (gmap pystr pystr)) : state :=
  match load_translation_cache cache_f with
  | Ok c => State c cache_f []
  | Raise _ => State ∅ cache_f []
  end.



End Main.

(** ** Word entries (master.py, master_2.py) *)

(** An element of [entry['kanji']] or [entry['kana']]. *)
Record writing := Writing { w_text : pystr }.

(** An element of [sense['gloss']]. *)
Record gloss := Gloss { lang : pystr; text : pystr }.

(** An input word entry; a sense is the list of its glosses. *)
Record entry := Entry {
  kanji : list writing;
  kana : list writing;
  sense : list (list gloss)
}.

(** An output entry: [{'kanji': .., 'kana': .., 'meaning': ..}]. *)
Record out_entry := OutEntry {
  out_kanji : list pystr;
  out_kana : list pystr;
  meaning : list pystr
}.

(** [[gloss['text'] for sense in entry['sense'] for gloss in sense['gloss']
      if gloss['lang'] == 'eng']] *)
Definition english_meanings (e : entry) : list pystr :=
  flat_map
    (fun s => map text (filter (fun g => bool_decide (lang g = lit "eng")) s))
    (sense e).

(** [if hindi_translation and hindi_translation.strip()] *)
Definition kept (hindi_translation : pystr) : bool :=
  truthy hindi_translation && truthy (strip hindi_translation).

(** ** master.py: DictionaryProcessor (googletrans) *)

Module Master.

Record state := State {
  translation_cache : gmap pystr pystr;       (* keyed by the meaning itself *)
  cache_file : file (gmap pystr pystr);
  log : list event
}.

Definition record (e : event) (st : state) : state :=
  State (translation_cache st) (cache_file st) (log st ++ [e]).

(** [_load_translation_cache]: only FileNotFoundError is caught. *)
Definition _load_translation_cache (f : file (gmap pystr pystr))
  : result (gmap pystr pystr) :=
  match json_load f with
  | Raise FileNotFoundError => Ok ∅
  | r => r
  end.

Definition cache_and_save (k v : pystr) (st : state) : state :=
  let c := <[k := v]> (translation_cache st) in
  State c (Holds c) (log st).

(** The body of [_translate_meaning]: the [except Exception] clause returns
    the meaning itself, so the body never raises.  (The pause
    [time.sleep(random.uniform(0.5, 1.5))] after a translation is left out.) *)
Definition _translate_meaning_body (p : provider) (meaning : pystr)
  (st : state) : result pystr * state :=
  match translation_cache st !! meaning with
  | Some v => (Ok v, st)
  | None =>
      match p (ncalls (log st)) meaning with
      | None => (Ok meaning, record (Call meaning) st)
      | Some translated_text =>
          (Ok translated_text,
           cache_and_save meaning translated_text (record (Call meaning) st))
      end
  end.

(** The method as decorated:
    [@retry(stop=stop_after_attempt(3),
            wait=wait_exponential(multiplier=1, min=4, max=10))]. *)
Definition _translate_meaning (p : provider) (meaning : pystr)
  : state -> result pystr * state :=
  Tenacity.retry (fun secs => record (Sleep secs))
    (Tenacity.wait_exponential 1 4 10)
    (_translate_meaning_body p meaning) 3.

(** The loop of [_process_single_entry] over the English meanings. *)
Fixpoint translate_meanings (p : provider) (meanings : list pystr)
  (st : state) : result (list pystr) * state :=
  match meanings with
  | [] => (Ok [], st)
  | m :: rest =>
      match _translate_meaning p m st with
      | (Raise e, st') => (Raise e, st')
      | (Ok hindi_translation, st') =>
          match translate_meanings p rest st' with
          | (Raise e, st'') => (Raise e, st'')
          | (Ok hindi_meanings, st'') =>
              (Ok (if kept hindi_translation
                   then hindi_translation :: hindi_meanings
                   else hindi_meanings), st'')
          end
      end
  end.

(** What [_translate_meaning] returns for each of the meanings in turn,
    before the test on the translation. *)
Fixpoint translations (p : provider) (meanings : list pystr) (st : state)
  : list pystr :=
  match meanings with
  | [] => []
  | m :: rest =>
      match _translate_meaning p m st with
      | (Ok t, st') => t :: translations p rest st'
      | (Raise _, _) => []
      end
  end.

Definition _process_single_entry (p : provider) (e : entry) (st : state)
  : result out_entry * state :=
  match translate_meanings p (english_meanings e) st with
  | (Raise x, st') => (Raise x, st')
  | (Ok hindi_meanings, st') =>
      (Ok (OutEntry (map w_text (kanji e)) (map w_text (kana e))
             hindi_meanings), st')
  end.

(** The processor with the data produced so far and the output file
    [japanese_dictionary_hindi.json]. *)
Record processor := Processor {
  translator : state;
  processed_data : list out_entry;
  output_file : file (list out_entry)
}.

(** [_load_existing_data]: only FileNotFoundError is caught. *)
Definition _load_existing_data (f : file (list out_entry))
  : result (list out_entry) :=
  match json_load f with
  | Raise FileNotFoundError => Ok []
  | r => r
  end.

(** [_save_progress]: the entry is appended and the whole list written. *)
Definition _save_progress (entry : out_entry) (pr : processor) : processor :=
  let data := processed_data pr ++ [entry] in
  Processor (translator pr) data (Holds data).

(** [for processed_entry in executor.map(self._process_single_entry, ..):
       self._save_progress(processed_entry)]: the results come in the order
    of the entries; the worker threads are run here one entry after the
    other, each entry being saved before the next is processed. *)
Fixpoint save_entries (p : provider) (entries : list entry) (pr : processor)
  : result unit * processor :=
  match entries with
  | [] => (Ok tt, pr)
  | e :: rest =>
      match _process_single_entry p e (translator pr) with
      | (Raise x, st') =>
          (Raise x, Processor st' (processed_data pr) (output_file pr))
      | (Ok processed_entry, st') =>
          save_entries p rest
            (_save_progress processed_entry
               (Processor st' (processed_data pr) (output_file pr)))
      end
  end.

(** [process_dictionary]: nothing is caught; an unreadable input raises, and
    so does the executor on [max_workers <= 0] (ValueError). *)
Definition process_dictionary (p : provider) (input_file : file (list entry))
  (max_workers : Z) (pr : processor) : result unit * processor :=
  match json_load input_file with
  | Raise e => (Raise e, pr)
  | Ok words =>
      let entries_to_process := drop (length (processed_data pr)) words in
      if max_workers <=? 0 then (Raise ValueError, pr)
      else save_entries p entries_to_process pr
  end.

End Master.

(** ** master_2.py: DictionaryProcessor (argostranslate, batches) *)

Module Master2.

(** The progress record as read from [.processing_progress.json]; the code
    reads both keys with [.get(key, 0)]. *)
Record progress := Progress {
  processed_batches : option Z;
  total_batches : option Z
}.

(** How a write [with open(path, 'w') as f: json.dump(value, f)] can go. *)
Inductive fault :=
| NoFault          (* the value is on disk *)
| OpenFails        (* [open] raises: the file is as it was *)
| DumpFails.       (* the write raises midway: the file is truncated *)

Definition write_file {A} (old : file A) (new : A) (f : fault) : file A :=
  match f with
  | NoFault => Holds new
  | OpenFails => old
  | DumpFails => Malformed
  end.

(** The writes attempted, oldest first, with what was to be written. *)
Inductive write :=
| WriteCache (c : gmap pystr pystr) (f : fault)
| WriteOutput (data : list out_entry) (f : fault)
| WriteProgress (processed total : Z) (f : fault).

(** The disk: the fault met by the [n]-th write attempted so far. *)
Definition disk := nat -> fault.

Definition cache_write (w : write) : bool :=
  match w with WriteCache _ _ => true | _ => false end.

(** In a sequence of writes, every write of the progress file comes right
    after a write of the output file that went through; [after_output]
    tells whether the write before the sequence was such a write. *)
Fixpoint output_then_progress (after_output : bool) (ws : list write) : bool :=
  match ws with
  | [] => true
  | WriteProgress _ _ _ :: rest =>
      after_output && output_then_progress false rest
  | WriteOutput _ NoFault :: rest => output_then_progress true rest
  | _ :: rest => output_then_progress false rest
  end.

Record state := State {
  translation_cache : gmap pystr pystr;       (* keyed by the meaning itself *)
  processed_data : list out_entry;
  processing_progress : progress;             (* as loaded by [__init__] *)
  cache_file : file (gmap pystr pystr);
  output_file : file (list out_entry);
  progress_file : file progress;
  log : list event;
  writes : list write
}.

(** What a translation depends on and what it determines: the cache and the
    log of calls. *)
Definition core (st : state) : gmap pystr pystr * list event :=
  (translation_cache st, log st).

Section Methods.
Variable p : provider.
Variable d : disk.

(** [_load_translation_cache]: FileNotFoundError and JSONDecodeError are
    caught. *)
Definition _load_translation_cache (f : file (gmap pystr pystr))
  : result (gmap pystr pystr) :=
  match json_load f with
  | Raise FileNotFoundError | Raise JSONDecodeError => Ok ∅
  | r => r
  end.

Definition _load_processing_progress (f : file progress) : result progress :=
  match json_load f with
  | Raise FileNotFoundError | Raise JSONDecodeError =>
      Ok (Progress (Some 0) (Some 0))
  | r => r
  end.

Definition _load_existing_data (f : file (list out_entry))
  : result (list out_entry) :=
  match json_load f with
  | Raise FileNotFoundError | Raise JSONDecodeError => Ok []
  | r => r
  end.

(** [_save_translation_cache]: the whole method is inside [try], an
    exception is printed. *)
Definition _save_translation_cache (st : state) : state :=
  let f := d (length (writes st)) in
  let c := translation_cache st in
  State c (processed_data st) (processing_progress st)
    (write_file (cache_file st) c f) (output_file st) (progress_file st)
    (log st) (writes st ++ [WriteCache c f]).

(** [_save_processing_progress]: likewise, an exception is printed. *)
Definition _save_processing_progress (processed total : Z) (st : state)
  : state :=
  let f := d (length (writes st)) in
  State (translation_cache st) (processed_data st) (processing_progress st)
    (cache_file st) (output_file st)
    (write_file (progress_file st)
       (Progress (Some processed) (Some total)) f)
    (log st) (writes st ++ [WriteProgress processed total f]).

(** [self.processed_data.extend(batch_entries)] *)
Definition extend_processed_data (batch_entries : list out_entry)
  (st : state) : state :=
  State (translation_cache st) (processed_data st ++ batch_entries)
    (processing_progress st) (cache_file st) (output_file st)
    (progress_file st) (log st) (writes st).

(** The write of [self.processed_data] to the output file; [true] when it
    went through, [false] when it raised. *)
Definition write_output (st : state) : bool * state :=
  let f := d (length (writes st)) in
  (match f with NoFault => true | _ => false end,
   State (translation_cache st) (processed_data st) (processing_progress st)
     (cache_file st) (write_file (output_file st) (processed_data st) f)
     (progress_file st) (log st)
     (writes st ++ [WriteOutput (processed_data st) f])).

(** [_save_batch_progress]: extend, write the output, save the progress;
    an exception anywhere leads to the [except] clause, which prints. *)
Definition _save_batch_progress (batch_entries : list out_entry)
  (processed total : Z) (st : state) : state :=
  let st1 := extend_processed_data batch_entries st in
  match write_output st1 with
  | (true, st2) => _save_processing_progress processed total st2
  | (false, st2) => st2
  end.

Definition record_call (meaning : pystr) (st : state) : state :=
  State (translation_cache st) (processed_data st) (processing_progress st)
    (cache_file st) (output_file st) (progress_file st)
    (log st ++ [Call meaning]) (writes st).

(** [self.translation_cache[meaning] = translated_text] *)
Definition cache_put (k v : pystr) (st : state) : state :=
  State (<[k := v]> (translation_cache st)) (processed_data st)
    (processing_progress st) (cache_file st) (output_file st)
    (progress_file st) (log st) (writes st).

(** [_translate_meaning]: not decorated; [except Exception] returns the
    meaning itself. *)
Definition _translate_meaning (meaning : pystr) (st : state)
  : pystr * state :=
  match translation_cache st !! meaning with
  | Some v => (v, st)
  | None =>
      match p (ncalls (log st)) meaning with
      | None => (meaning, record_call meaning st)
      | Some translated_text =>
          (translated_text,
           _save_translation_cache
             (cache_put meaning translated_text (record_call meaning st)))
      end
  end.

(** The loop of [_process_single_entry] over the English meanings. *)
Fixpoint translate_meanings (meanings : list pystr) (st : state)
  : list pystr * state :=
  match meanings with
  | [] => ([], st)
  | m :: rest =>
      let '(hindi_translation, st') := _translate_meaning m st in
      let '(hindi_meanings, st'') := translate_meanings rest st' in
      (if kept hindi_translation
       then hindi_translation :: hindi_meanings
       else hindi_meanings, st'')
  end.

(** What [_translate_meaning] returns for each of the meanings in turn,
    before the test on the translation. *)
Fixpoint translations (meanings : list pystr) (st : state) : list pystr :=
  match meanings with
  | [] => []
  | m :: rest =>
      let '(t, st') := _translate_meaning m st in t :: translations rest st'
  end.

Definition _process_single_entry (e : entry) (st : state)
  : out_entry * state :=
  let '(hindi_meanings, st') := translate_meanings (english_meanings e) st in
  (OutEntry (map w_text (kanji e)) (map w_text (kana e)) hindi_meanings,
   st').

(** [list(executor.map(self._process_single_entry, batch_entries))]: the
    results come in the order of the entries; the worker threads are run
    here one entry after the other. *)
Fixpoint process_batch (batch_entries : list entry) (st : state)
  : list out_entry * state :=
  match batch_entries with
  | [] => ([], st)
  | e :: rest =>
      let '(o, st') := _process_single_entry e st in
      let '(os, st'') := process_batch rest st' in
      (o :: os, st'')
  end.

(** Python's [words[start:end]] on integers of either sign. *)
Definition slice_bound {A} (l : list A) (i : Z) : nat :=
  let n := Z.of_nat (length l) in
  Z.to_nat (if i <? 0 then Z.max (i + n) 0 else Z.min i n).

Definition py_slice {A} (l : list A) (start stop : Z) : list A :=
  take (slice_bound l stop - slice_bound l start)
       (drop (slice_bound l start) l).

(** [range(start, stop)] *)
Definition py_range (start stop : Z) : list Z :=
  map (fun i => start + Z.of_nat i) (seq 0 (Z.to_nat (stop - start))).

(** The body of the [for batch_num in range(..)] loop, and the loop with
    its [break]. *)
Definition batch_body (words : list entry) (batch_size total : Z)
  (batch_num : Z) (st : state) : bool * state :=
  let start_idx := batch_num * batch_size in
  let end_idx := Z.min (start_idx + batch_size) (Z.of_nat (length words)) in
  let batch_entries := py_slice words start_idx end_idx in
  let '(processed_batch, st1) := process_batch batch_entries st in
  let st2 := _save_batch_progress processed_batch (batch_num + 1) total st1 in
  (Z.of_nat (length words) <=? end_idx, st2).

Fixpoint batch_loop (words : list entry) (batch_size total : Z)
  (batch_nums : list Z) (st : state) : state :=
  match batch_nums with
  | [] => st
  | batch_num :: rest =>
      match batch_body words batch_size total batch_num st with
      | (true, st') => st'
      | (false, st') => batch_loop words batch_size total rest st'
      end
  end.

Definition get0 (o : option Z) : Z := default 0 o.

(** [process_dictionary]: everything is inside [try]; the [except] clause
    prints, so an unreadable input, [batch_size = 0] (ZeroDivisionError)
    and [max_workers <= 0] (ValueError from the executor, at the first
    batch) end the run where they occur. *)
Definition process_dictionary (input_file : file (list entry))
  (batch_size max_workers : Z) (st : state) : state :=
  match json_load input_file with
  | Raise _ => st
  | Ok words =>
      if batch_size =? 0 then st
      else
        let total := (Z.of_nat (length words) + batch_size - 1) / batch_size in
        let start_batch := get0 (processed_batches (processing_progress st)) in
        let st1 :=
          if get0 (total_batches (processing_progress st)) =? total
          then st
          else _save_processing_progress start_batch total st in
        match py_range start_batch total with
        | [] => st1
        | batch_nums =>
            if max_workers <=? 0 then st1
            else batch_loop words batch_size total batch_nums st1
        end
  end.

(** [__init__], after the translation package is set up: the cache, the
    data already produced and the progress are loaded from the output
    folder.  A load that raises ends the construction. *)
Definition init (cache_f : file (gmap pystr pystr))
  (output_f : file (list out_entry)) (progress_f : file progress)
  : result state :=
  match _load_translation_cache cache_f with
  | Raise e => Raise e
  | Ok c =>
      match _load_existing_data output_f with
      | Raise e => Raise e
      | Ok data =>
          match _load_processing_progress progress_f with
          | Raise e => Raise e
          | Ok pr => Ok (State c data pr cache_f output_f progress_f [] [])
          end
      end
  end.

End Methods.

End Master2.

(** ** index.py: RealTimeJsonTranslator (argostranslate, work queue) *)

Module Index.

(** A work unit on the queue: [(text, content_hash)]; [None] is the poison
    pill that [translation_worker] tests for. *)
Definition work := option (pystr * pystr).

Record state := State {
  translation_cache : gmap pystr pystr;       (* keyed by the MD5 of the text *)
  cache_file : file (gmap pystr pystr);
  translation_queue : list work;
  log : list event
}.

Definition record (e : event) (st : state) : state :=
  State (translation_cache st) (cache_file st) (translation_queue st)
    (log st ++ [e]).

(** [self.translation_queue.put(item)] *)
Definition put (item : work) (st : state) : state :=
  State (translation_cache st) (cache_file st) (translation_queue st ++ [item])
    (log st).

Definition set_queue (q : list work) (st : state) : state :=
  State (translation_cache st) (cache_file st) q (log st).

(** [self.translation_cache[content_hash] = translation] *)
Definition cache_put (h v : pystr) (st : state) : state :=
  State (<[h := v]> (translation_cache st)) (cache_file st)
    (translation_queue st) (log st).

Definition save_translation_cache (st : state) : state :=
  State (translation_cache st) (Holds (translation_cache st))
    (translation_queue st) (log st).

(** [load_translation_cache]: [os.path.exists], then a bare [except]. *)
Definition load_translation_cache (f : file (gmap pystr pystr))
  : result (gmap pystr pystr) :=
  match f with
  | Missing => Ok ∅
  | _ => match json_load f with
         | Ok c => Ok c
         | Raise _ => Ok ∅
         end
  end.

(** [translate_text]: the provider is not called here; a text that is not in
    the cache is put on the queue and returned as it is. *)
Definition translate_text (text : pystr) : M state pystr :=
  fun st =>
    if blank text then (Ok text, st)
    else
      match get_content_hash text with
      | Raise e => (Raise e, st)
      | Ok content_hash =>
          match translation_cache st !! content_hash with
          | Some v => (Ok v, st)
          | None =>
              if any_ascii text
              then (Ok text, put (Some (text, content_hash)) st)
              else (Ok text, st)
          end
      end.



(** The fingerprint [h] is a key of the cache. *)
Definition cached (h : pystr) (st : state) : Prop :=
  is_Some (translation_cache st !! h).

(** [_process_content_item] *)
Fixpoint _process_content_item (item : json) : M state json :=
  match item with
  | JObj members =>
      members' <-
        alterM (fun content =>
                  match content with
                  | JStr s => s' <- translate_text s ;; ret (JStr s')
                  | JArr subs =>
                      subs' <- mapM _process_content_item subs ;;
                      ret (JArr subs')
                  | _ => ret content
                  end) (lit "content") members ;;
      ret (JObj members')
  | _ => ret item
  end.

(** The body of [for item in entry[5]]. *)
Definition process_item (item : json) : M state json :=
  match is_structured_content item with
  | Raise e => raise e
  | Ok false => ret item
  | Ok true =>
      match item with
      | JObj ms =>
          match member (lit "content") ms with
          | Some (JArr cs) =>
              cs' <- mapM _process_content_item cs ;;
              ret (JObj (set_member (lit "content") (JArr cs') ms))
          | _ => ret item
          end
      | _ => ret item
      end
  end.

(** The body of [for entry_index, entry in enumerate(data)]. *)
Definition process_entry (entry : json) : M state json :=
  match sixth_field entry with
  | Raise e => raise e
  | Ok None => ret entry
  | Ok (Some items) =>
      items' <- mapM process_item items ;;
      ret (match entry with
           | JArr fields => JArr (<[5%nat := JArr items']> fields)
           | _ => entry
           end)
  end.

(** [_process_content] *)
Definition _process_content (data : json) : M state json :=
  match iterate data with
  | Raise e => raise e
  | Ok entries =>
      entries' <- mapM process_entry entries ;;
      ret (match data with JArr _ => JArr entries' | _ => data end)
  end.

Section Workers.
Variable p : provider.
Variable batch_size : Z.

(** [batch_translate]: one provider call per text; an exception is printed
    and raised again. *)
Fixpoint batch_translate (texts : list pystr) : M state (list pystr) :=
  match texts with
  | [] => ret []
  | t :: rest =>
      fun st =>
        let st' := record (Call t) st in
        match p (ncalls (log st)) t with
        | None => (Raise ProviderError, st')
        | Some translated =>
            (trs <- batch_translate rest ;; ret (translated :: trs)) st'
        end
  end.

(** The loop of [_process_batch] under [self.cache_lock]. *)
Fixpoint store (translations content_hashes : list pystr) (st : state)
  : state :=
  match translations, content_hashes with
  | tr :: trs, h :: hs => store trs hs (cache_put h tr st)
  | _, _ => st
  end.

Definition _process_batch (batch : list (pystr * pystr)) : M state unit :=
  let texts := map fst batch in
  let content_hashes := map snd batch in
  translations <- batch_translate texts ;;
  fun st => (Ok tt, save_translation_cache (store translations content_hashes st)).

(** A worker thread running [translation_worker]: its local [batch] while
    it loops, and how it ended. *)
Inductive worker :=
| Running (batch : list (pystr * pystr))
| Finished
| Failed (e : exn).

(** One turn of the [while True] loop.  [queue.get(timeout=1)] on an empty
    queue raises [queue.Empty]: nothing is put on the queue while the
    workers run. *)
Definition worker_step (batch : list (pystr * pystr)) (st : state)
  : worker * state :=
  match translation_queue st with
  | [] =>
      match batch with
      | [] => (Finished, st)
      | _ =>
          match _process_batch batch st with
          | (Ok _, st') => (Finished, st')
          | (Raise e, st') => (Failed e, st')
          end
      end
  | None :: q => (Finished, set_queue q st)
  | Some item :: q =>
      let batch' := batch ++ [item] in
      let st1 := set_queue q st in
      if batch_size <=? Z.of_nat (length batch') then
        match _process_batch batch' st1 with
        | (Ok _, st') => (Running [], st')
        | (Raise e, st') => (Failed e, st')
        end
      else (Running batch', st1)
  end.

(** The worker [i] takes one turn, if it is still running. *)
Definition step_at (i : nat) (ws : list worker) (st : state)
  : list worker * state :=
  match ws !! i with
  | Some (Running batch) =>
      let '(w, st') := worker_step batch st in (<[i := w]> ws, st')
  | _ => (ws, st)
  end.

Fixpoint run_schedule (sched : list nat) (ws : list worker) (st : state)
  : list worker * state :=
  match sched with
  | [] => (ws, st)
  | i :: sched' =>
      let '(ws', st') := step_at i ws st in run_schedule sched' ws' st'
  end.

(** A worker runs on its own until it ends; each turn takes an item off
    the queue or ends the worker. *)
Fixpoint run_worker (turns : nat) (w : worker) (st : state)
  : worker * state :=
  match w, turns with
  | Running batch, Datatypes.S turns' =>
      let '(w', st') := worker_step batch st in run_worker turns' w' st'
  | _, _ => (w, st)
  end.

Fixpoint finish (ws : list worker) (st : state) : list worker * state :=
  match ws with
  | [] => ([], st)
  | w :: rest =>
      let '(w', st') :=
        run_worker (Datatypes.S (length (translation_queue st))) w st in
      let '(rest', st'') := finish rest st' in
      (w' :: rest', st'')
  end.

(** The thread pool of [process_file]: the workers take turns as the
    scheduler [sched] says; when [sched] is used up those still running
    run to their end, as leaving the [with] block waits for them. *)
Definition run_workers (sched : list nat) (num_workers : nat) (st : state)
  : list worker * state :=
  let '(ws, st') := run_schedule sched (repeat (Running []) num_workers) st in
  finish ws st'.

Definition failed (w : worker) : bool :=
  match w with Failed _ => true | _ => false end.






(** [process_file]: every exception is caught and printed.  The output file
    is given as it is found and returned as it is left; [update_json_file]
    writes the whole document to it. *)
Definition process_file (sched : list nat) (num_workers : Z)
  (input_file : file json) (output_file : file json) (st : state)
  : state * file json :=
  match json_load input_file with
  | Raise _ => (st, output_file)
  | Ok data =>
      let output0 :=
        match output_file with
        | Missing => Holds data
        | _ => output_file
        end in
      match _process_content data st with
      | (Raise _, st1) => (st1, output0)
      | (Ok data1, st1) =>
          if num_workers <=? 0 then (st1, output0)      (* ValueError *)
          else
            let '(ws, st2) := run_workers sched (Z.to_nat num_workers) st1 in
            if existsb failed ws then (st2, output0)
            else
              match _process_content data1 st2 with
              | (Raise _, st3) => (st3, output0)
              | (Ok data2, st3) => (st3, Holds data2)
              end
      end
  end.





(** [process_directory]: the files named [term_bank_*.json]; [scheds] gives
    the scheduling of the workers for each of them. *)
Fixpoint process_directory (scheds : pystr -> list nat) (num_workers : Z)
  (listing : list (pystr * file json)) (out : directory) (st : state)
  : state * directory :=
  match listing with
  | [] => (st, out)
  | (filename, input_file) :: rest =>
      if is_term_bank filename then
        let '(st1, written) :=
          process_file (scheds filename) num_workers input_file
            (out filename) st in
        process_directory scheds num_workers rest
          (put_file filename written out) st1
      else process_directory scheds num_workers rest out st
  end.
End Workers.

(** If the text [t] is translatable (not blank, with an ASCII character),
    the cache [c] has an entry for it. *)
Definition settled (c : gmap pystr pystr) (t : pystr) : Prop :=
  blank t = false -> any_ascii t = true ->
  exists h, get_content_hash t = Ok h /\ is_Some (c !! h).

(** [__init__], once the translation package is installed: the cache is
    loaded, the queue is empty. *)
Definition init (cache_f : file (gmap pystr pystr)) : state :=
  match load_translation_cache cache_f with
  | Ok c => State c cache_f [] []
  | Raise _ => State ∅ cache_f [] []
  end.

End Index.

(** ** Sample inputs *)

Module Sample.

(** A provider that answers every call with the same Hindi word, one that
    is down, and one that fails [k] times before it answers. *)
Definition hindi : provider := fun _ _ => Some [0x939; 0x93f].
Definition down : provider := fun _ _ => None.
Definition flaky (k : nat) : provider :=
  fun n _ => if (n <? k)%nat then None else Some [0x939; 0x93f].

(** A provider that answers with a single space. *)
Definition spaces : provider := fun _ _ => Some [0x20].

(** A disk without faults. *)
Definition sound : Master2.disk := fun _ => Master2.NoFault.

Definition main0 : Main.state := Main.State ∅ Missing [].
Definition master2_0 : Master2.state :=
  Master2.State ∅ [] (Master2.Progress (Some 0) (Some 0))
    Missing Missing Missing [] [].
Definition index0 : Index.state := Index.State ∅ Missing [] [].

(** A term bank with one entry; its structured content holds the text
    ["cat"] directly and the text ["a pet"] one level down. *)
Definition term_bank : json :=
  JArr [JArr [JStr [0x732B]; JStr [0x306D; 0x3053]; JStr []; JStr [];
              JNum 0;
              JArr [JObj [(lit "type", JStr (lit "structured-content"));
                          (lit "content",
                           JArr [JObj [(lit "tag", JStr (lit "div"));
                                       (lit "content", JStr (lit "cat"))];
                                 JObj [(lit "tag", JStr (lit "ul"));
                                       (lit "content",
                                        JArr [JObj [(lit "tag", JStr (lit "li"));
                                                    (lit "content",
                                                     JStr (lit "a pet"))]])]])]];
              JNum 1; JStr []]].

(** A cache with an entry for each of the two texts of [term_bank]. *)
Definition full_cache : gmap pystr pystr :=
  <[lit "d077f244def8a70e5ea758bd8352fcd8" := [0x92C; 0x93F; 0x932; 0x94D; 0x932; 0x940]]>
    (<[lit "7bb8ba7b10605558253114fb0b573ac1" := [0x92A; 0x93E; 0x932; 0x924; 0x942]]> ∅).

(** A cache, keyed by the meaning, with the English gloss of [neko]. *)
Definition meaning_cache : gmap pystr pystr :=
  <[lit "cat" := [0x92C; 0x93F; 0x932; 0x94D; 0x932; 0x940]]> ∅.

(** A word entry with one English gloss and one Dutch gloss. *)
Definition neko : entry :=
  Entry [Writing [0x732B]] [Writing [0x306D; 0x3053]]
    [[Gloss (lit "eng") (lit "cat"); Gloss (lit "dut") (lit "kat")]].

(** A disk on which the first write fails midway. *)
Definition first_write_fails : Master2.disk :=
  fun n => match n with O => Master2.DumpFails | _ => Master2.NoFault end.

(** Two printable strings with the same MD5 (M. Stevens, 2024); they differ
    in one character. *)
Definition textcoll_a : pystr :=
  lit "TEXTCOLLBYfGiJUETHQ4hAcKSMd5zYpgqf1YRDhkmxHkhPWptrkoyz28wnI9V0aHeAuaKnak".
Definition textcoll_e : pystr :=
  lit "TEXTCOLLBYfGiJUETHQ4hEcKSMd5zYpgqf1YRDhkmxHkhPWptrkoyz28wnI9V0aHeAuaKnak".

(** A run of master_2.py that was interrupted after one batch of two. *)
Definition resumed : Master2.state :=
  Master2.State ∅ [OutEntry [] [] []]
    (Master2.Progress (Some 1) (Some 5))
    Missing (Holds [OutEntry [] [] []])
    (Holds (Master2.Progress (Some 1) (Some 5))) [] [].

End Sample.

(** * Properties *)

(** ** Strings *)

Lemma lstrip_nil_iff (s : pystr) :
  lstrip s = [] <-> forallb isspace s = true.
Proof.
  induction s as [|c s IH]; simpl; [tauto|].
  destruct (isspace c); simpl; [exact IH|].
  split; discriminate.
Qed.

Lemma lstrip_head (s : pystr) (c : Z) (r : pystr) :
  lstrip s = c :: r -> isspace c = false.
Proof.
  induction s as [|d s IH]; simpl; [discriminate|].
  destruct (isspace d) eqn:E; [exact IH|].
  intros H; inversion H; subst; exact E.
Qed.

Lemma forallb_rev {A} (f : A -> bool) (l : list A) :
  forallb f (rev l) = forallb f l.
Proof.
  induction l as [|x l IH]; simpl; [reflexivity|].
  rewrite forallb_app, IH; simpl. rewrite andb_true_r. apply andb_comm.
Qed.

(** [not text.strip()] holds exactly on the strings made of whitespace only
    (the empty string among them). *)
Lemma blank_iff (s : pystr) :
  blank s = true <-> forallb isspace s = true.
Proof.
  unfold blank, strip, rstrip. split.
  - intros H.
    destruct (lstrip s) as [|c r] eqn:E; [now apply lstrip_nil_iff|].
    exfalso.
    destruct (rev (lstrip (rev (c :: r)))) as [|x y] eqn:E2;
      [|simpl in H; discriminate].
    apply (f_equal (@rev Z)) in E2. rewrite rev_involutive in E2. simpl in E2.
    apply lstrip_nil_iff in E2. rewrite forallb_app in E2.
    apply andb_true_iff in E2 as [_ E2]. simpl in E2.
    rewrite (lstrip_head _ _ _ E) in E2. discriminate.
  - intros H. apply lstrip_nil_iff in H. rewrite H. reflexivity.
Qed.

Lemma strip_nil : strip [] = [].
Proof. reflexivity. Qed.

(** [if t and t.strip()] fails exactly on the blank strings. *)
Lemma kept_blank (t : pystr) : kept t = negb (blank t).
Proof.
  unfold kept, blank. rewrite negb_involutive.
  destruct t; [reflexivity|]. reflexivity.
Qed.

Lemma isascii_any_ascii (s : pystr) :
  isascii s = true -> s <> [] -> any_ascii s = true.
Proof.
  destruct s as [|c s]; [congruence|]. simpl.
  intros H _. apply andb_true_iff in H as [-> _]. reflexivity.
Qed.

Lemma ncalls_app (l1 l2 : list event) :
  ncalls (l1 ++ l2) = (ncalls l1 + ncalls l2)%nat.
Proof. unfold ncalls. rewrite filter_app, length_app. reflexivity. Qed.

Lemma calls_app (l1 l2 : list event) : calls (l1 ++ l2) = calls l1 ++ calls l2.
Proof. unfold calls. apply omap_app. Qed.

(** ** The translation entry points *)

Lemma main_ncalls_record (t : pystr) (st : Main.state) :
  ncalls (Main.log (Main.record (Call t) st)) = Datatypes.S (ncalls (Main.log st)).
Proof. simpl. rewrite ncalls_app. simpl. unfold ncalls at 2. simpl. lia. Qed.

(** On a text that reaches the provider, the body of main.py's
    [translate_text] is one provider call. *)
Lemma main_body_miss (p : provider) (text h : pystr) (st : Main.state) :
  blank text = false -> get_content_hash text = Ok h ->
  Main.translation_cache st !! h = None -> isascii text = true ->
  Main.translate_text_body p text st =
    match p (ncalls (Main.log st)) text with
    | None => (Raise ProviderError, Main.record (Call text) st)
    | Some tr => (Ok tr, Main.cache_and_save h tr (Main.record (Call text) st))
    end.
Proof.
  intros Hb Hh Hc Ha. unfold Main.translate_text_body.
  rewrite Hb, Hh, Hc, Ha. reflexivity.
Qed.

Lemma main_body_blank (p : provider) (text : pystr) (st : Main.state) :
  blank text = true -> Main.translate_text_body p text st = (Ok text, st).
Proof. intros Hb. unfold Main.translate_text_body. rewrite Hb. reflexivity. Qed.

Lemma main_body_hit (p : provider) (text h v : pystr) (st : Main.state) :
  blank text = false -> get_content_hash text = Ok h ->
  Main.translation_cache st !! h = Some v ->
  Main.translate_text_body p text st = (Ok v, st).
Proof.
  intros Hb Hh Hc. unfold Main.translate_text_body.
  rewrite Hb, Hh, Hc. reflexivity.
Qed.

(** When the body returns, the decorated method is the body. *)
Lemma main_retry_ok (p : provider) (text v : pystr) (st st' : Main.state) :
  Main.translate_text_body p text st = (Ok v, st') ->
  Main.translate_text p text st = (Ok v, st').
Proof.
  intros H. unfold Main.translate_text, Tenacity.retry. simpl. rewrite H.
  reflexivity.
Qed.

(** C4 (as amended).  On an empty or whitespace-only string, [translate_text]
    of main.py and of index.py returns the string and leaves the state as it
    is: no provider call, no cache access, nothing queued.
    [_translate_meaning] of master.py and master_2.py has no such guard: a
    blank meaning that is not a key of the cache is sent to the provider. *)
Theorem blank_text_guard (p : provider) (d : Master2.disk) (text : pystr) :
  forallb isspace text = true ->
  (forall st, Main.translate_text p text st = (Ok text, st)) /\
  (forall st, Index.translate_text text st = (Ok text, st)) /\
  (forall st, Master.translation_cache st !! text = None ->
     calls (Master.log (snd (Master._translate_meaning p text st)))
     = calls (Master.log st) ++ [text]) /\
  (forall st, Master2.translation_cache st !! text = None ->
     calls (Master2.log (snd (Master2._translate_meaning p d text st)))
     = calls (Master2.log st) ++ [text]).
Proof.
  intros Hw. apply blank_iff in Hw. repeat split.
  - intros st. apply main_retry_ok, main_body_blank, Hw.
  - intros st. unfold Index.translate_text. rewrite Hw. reflexivity.
  - intros st Hc. unfold Master._translate_meaning, Tenacity.retry. simpl.
    unfold Master._translate_meaning_body. rewrite Hc.
    destruct (p _ text); simpl; rewrite calls_app; reflexivity.
  - intros st Hc. unfold Master2._translate_meaning. rewrite Hc.
    destruct (p _ text); simpl; rewrite calls_app; reflexivity.
Qed.

Lemma blank_text_guard_witness :
  Main.translate_text Sample.hindi [0x20; 0x3000] Sample.main0
  = (Ok [0x20; 0x3000], Sample.main0).
Proof.
  apply (blank_text_guard Sample.hindi Sample.sound [0x20; 0x3000]).
  reflexivity.
Defined.

(** C4, as stated, fails on master_2.py: the meaning [" "] goes to the
    provider, and what comes back is returned in its place. *)
Lemma blank_meaning_is_sent :
  forallb isspace (lit " ") = true /\
  fst (Master2._translate_meaning Sample.hindi Sample.sound (lit " ")
         Sample.master2_0) <> lit " " /\
  calls (Master2.log
           (snd (Master2._translate_meaning Sample.hindi Sample.sound (lit " ")
                   Sample.master2_0))) = [lit " "].
Proof. vm_compute. repeat split. discriminate. Qed.

(** C8 (as amended).  For a text that is not blank and whose fingerprint is
    not in the cache: index.py queues it exactly when it holds at least one
    ASCII character; main.py sends it to the provider exactly when all its
    characters are ASCII; in both, a text without any ASCII character is
    returned unchanged and the state is left as it is. *)
Theorem source_language_heuristic (p : provider) (text h : pystr) :
  blank text = false -> get_content_hash text = Ok h ->
  (forall st, Index.translation_cache st !! h = None ->
     Index.translate_text text st
     = (Ok text, if any_ascii text then Index.put (Some (text, h)) st else st)) /\
  (forall st, Main.translation_cache st !! h = None ->
     if isascii text
     then exists rest,
       Main.log (snd (Main.translate_text p text st))
       = Main.log st ++ Call text :: rest
     else Main.translate_text p text st = (Ok text, st)) /\
  (any_ascii text = false ->
     forall st, Main.translation_cache st !! h = None ->
       Main.translate_text p text st = (Ok text, st)).
Proof.
  intros Hb Hh.
  assert (Hmain : forall st, Main.translation_cache st !! h = None ->
            isascii text = false ->
            Main.translate_text p text st = (Ok text, st)).
  { intros st Hc Ha. apply main_retry_ok. unfold Main.translate_text_body.
    rewrite Hb, Hh, Hc, Ha. reflexivity. }
  repeat split.
  - intros st Hc. unfold Index.translate_text. rewrite Hb, Hh, Hc.
    destruct (any_ascii text); reflexivity.
  - intros st Hc. destruct (isascii text) eqn:Ha; [|now apply Hmain].
    unfold Main.translate_text, Tenacity.retry. cbn [Tenacity.attempts].
    rewrite (main_body_miss p text h st Hb Hh Hc Ha).
    destruct (p _ text) as [tr|].
    + exists []. reflexivity.
    + set (st1 := Main.record (Sleep _) _).
      assert (L1 : Main.log st1 = (Main.log st ++ [Call text]) ++ [Sleep 4])
        by reflexivity.
      destruct (Main.translate_text_body p text st1) as [[v|e] st2] eqn:E2.
      * unfold Main.translate_text_body in E2. rewrite Hb, Hh in E2.
        change (Main.translation_cache st1) with (Main.translation_cache st) in E2.
        rewrite Hc, Ha in E2.
        destruct (p _ text); inversion E2; subst; simpl;
          rewrite <- !app_assoc; eexists; reflexivity.
      * unfold Main.translate_text_body in E2. rewrite Hb, Hh in E2.
        change (Main.translation_cache st1) with (Main.translation_cache st) in E2.
        rewrite Hc, Ha in E2.
        destruct (p _ text); inversion E2; subst.
        set (st3 := Main.record (Sleep _) _).
        destruct (Main.translate_text_body p text st3) as [[v|e'] st4] eqn:E4;
          unfold Main.translate_text_body in E4; rewrite Hb, Hh in E4;
          change (Main.translation_cache st3) with (Main.translation_cache st) in E4;
          rewrite Hc, Ha in E4;
          destruct (p _ text); inversion E4; subst; simpl;
          rewrite <- !app_assoc; eexists; reflexivity.
  - intros Hany st Hc. apply Hmain; [exact Hc|].
    destruct (isascii text) eqn:Ha; [|reflexivity].
    assert (text <> []) by (intros ->; discriminate).
    rewrite (isascii_any_ascii text Ha) in Hany by assumption. discriminate.
Qed.

Lemma source_language_heuristic_witness :
  Index.translate_text (lit "cat") Sample.index0
  = (Ok (lit "cat"),
     Index.put (Some (lit "cat", lit "d077f244def8a70e5ea758bd8352fcd8"))
       Sample.index0).
Proof.
  apply (source_language_heuristic Sample.hindi (lit "cat")
           (lit "d077f244def8a70e5ea758bd8352fcd8"));
    vm_compute; reflexivity.
Defined.

(** C8, as stated, fails on main.py: ["éa"] holds the ASCII character ["a"],
    is not blank and not in the cache, and is returned as it is without any
    provider call. *)
Lemma mixed_text_is_not_sent :
  any_ascii [0xE9; 0x61] = true /\ blank [0xE9; 0x61] = false /\
  Main.translate_text Sample.hindi [0xE9; 0x61] Sample.main0
  = (Ok [0xE9; 0x61], Sample.main0).
Proof. vm_compute. repeat split. Qed.

(** ** Retry *)

(** The waits that [wait_exponential(multiplier=1, min=4, max=10)] gives
    after the first and the second attempt. *)
Lemma wait_exponential_values :
  Tenacity.wait_exponential 1 4 10 1 = 4 /\ Tenacity.wait_exponential 1 4 10 2 = 4.
Proof. split; reflexivity. Qed.

(** One failed attempt of main.py's [translate_text] body, on a state whose
    cache and log are those of [st] up to the events [evs] added since. *)
Lemma main_body_after (p : provider) (text h : pystr) (st st1 : Main.state)
  (evs : list event) :
  blank text = false -> get_content_hash text = Ok h ->
  Main.translation_cache st !! h = None -> isascii text = true ->
  Main.translation_cache st1 = Main.translation_cache st ->
  Main.log st1 = Main.log st ++ evs ->
  Main.translate_text_body p text st1 =
    match p (ncalls (Main.log st) + ncalls evs)%nat text with
    | None => (Raise ProviderError, Main.record (Call text) st1)
    | Some tr => (Ok tr, Main.cache_and_save h tr (Main.record (Call text) st1))
    end.
Proof.
  intros Hb Hh Hc Ha Hc1 Hl. rewrite <- Hc1 in Hc.
  rewrite (main_body_miss p text h st1 Hb Hh Hc Ha), Hl, ncalls_app.
  reflexivity.
Qed.

(** C7 (as amended).  main.py's [translate_text] makes up to 3 attempts on a
    text that reaches the provider, sleeping
    [wait_exponential(multiplier=1, min=4, max=10)] = 4 seconds after the
    first and after the second failed attempt, and raises RetryError when
    the third attempt fails too; master_2.py's [_translate_meaning] and
    index.py's [batch_translate] make one attempt only: the former then
    returns the meaning itself, the latter raises. *)
Theorem retry_policy (p : provider) (text h : pystr) (st : Main.state) :
  blank text = false -> get_content_hash text = Ok h ->
  Main.translation_cache st !! h = None -> isascii text = true ->
  (forall tr, p (ncalls (Main.log st)) text = Some tr ->
     fst (Main.translate_text p text st) = Ok tr /\
     Main.log (snd (Main.translate_text p text st))
     = Main.log st ++ [Call text]) /\
  (forall tr, p (ncalls (Main.log st)) text = None ->
     p (1 + ncalls (Main.log st))%nat text = Some tr ->
     fst (Main.translate_text p text st) = Ok tr /\
     Main.log (snd (Main.translate_text p text st))
     = Main.log st ++ [Call text; Sleep 4; Call text]) /\
  (forall tr, p (ncalls (Main.log st)) text = None ->
     p (1 + ncalls (Main.log st))%nat text = None ->
     p (2 + ncalls (Main.log st))%nat text = Some tr ->
     fst (Main.translate_text p text st) = Ok tr /\
     Main.log (snd (Main.translate_text p text st))
     = Main.log st ++ [Call text; Sleep 4; Call text; Sleep 4; Call text]) /\
  (p (ncalls (Main.log st)) text = None ->
     p (1 + ncalls (Main.log st))%nat text = None ->
     p (2 + ncalls (Main.log st))%nat text = None ->
     fst (Main.translate_text p text st) = Raise RetryError /\
     Main.log (snd (Main.translate_text p text st))
     = Main.log st ++ [Call text; Sleep 4; Call text; Sleep 4; Call text]) /\
  (forall d m st2, Master2.translation_cache st2 !! m = None ->
     p (ncalls (Master2.log st2)) m = None ->
     Master2._translate_meaning p d m st2 = (m, Master2.record_call m st2)) /\
  (forall t st3, p (ncalls (Index.log st3)) t = None ->
     Index.batch_translate p [t] st3
     = (Raise ProviderError, Index.record (Call t) st3)).
Proof.
  intros Hb Hh Hc Ha.
  pose proof (main_body_miss p text h st Hb Hh Hc Ha) as B1.
  set (s1 := Main.record (Sleep 4) (Main.record (Call text) st)).
  pose proof (main_body_after p text h st s1 [Call text; Sleep 4]
                Hb Hh Hc Ha eq_refl) as B2.
  set (s2 := Main.record (Sleep 4) (Main.record (Call text) s1)).
  pose proof (main_body_after p text h st s2
                [Call text; Sleep 4; Call text; Sleep 4]
                Hb Hh Hc Ha eq_refl) as B3.
  assert (L1 : Main.log s1 = Main.log st ++ [Call text; Sleep 4])
    by (simpl; rewrite <- app_assoc; reflexivity).
  assert (L2 : Main.log s2 = Main.log st ++ [Call text; Sleep 4; Call text; Sleep 4])
    by (simpl; rewrite <- !app_assoc; reflexivity).
  specialize (B2 L1). specialize (B3 L2).
  replace (ncalls (Main.log st) + ncalls [Call text; Sleep 4])%nat
    with (1 + ncalls (Main.log st))%nat in B2 by (unfold ncalls; simpl; lia).
  replace (ncalls (Main.log st)
           + ncalls [Call text; Sleep 4; Call text; Sleep 4])%nat
    with (2 + ncalls (Main.log st))%nat in B3 by (unfold ncalls; simpl; lia).
  unfold Main.translate_text, Tenacity.retry. cbn [Tenacity.attempts].
  change (Tenacity.wait_exponential 1 4 10 1) with 4.
  change (Tenacity.wait_exponential 1 4 10 (1 + 1)) with 4.
  fold s1. rewrite B1.
  repeat split;
    try (repeat match goal with H : p _ text = _ |- _ => rewrite H end;
         fold s1; rewrite ?B2;
         repeat match goal with H : p _ text = _ |- _ => rewrite H end;
         fold s2; rewrite ?B3;
         repeat match goal with H : p _ text = _ |- _ => rewrite H end;
         first [ reflexivity
               | simpl; rewrite <- ?app_assoc; reflexivity ]).
  - intros d m st2 Hm Hp. unfold Master2._translate_meaning.
    rewrite Hm, Hp. reflexivity.
  - intros t st3 Hp. simpl. rewrite Hp. reflexivity.
Qed.

Lemma retry_policy_witness :
  fst (Main.translate_text Sample.down (lit "cat") Sample.main0)
  = Raise RetryError /\
  Main.log (snd (Main.translate_text Sample.down (lit "cat") Sample.main0))
  = [Call (lit "cat"); Sleep 4; Call (lit "cat"); Sleep 4; Call (lit "cat")].
Proof.
  apply (retry_policy Sample.down (lit "cat")
           (lit "d077f244def8a70e5ea758bd8352fcd8") Sample.main0);
    vm_compute; reflexivity.
Defined.

(** C7, as stated, fails on master_2.py: the provider fails once and would
    answer the next call; [_translate_meaning] makes the one call, makes no
    other and returns the meaning untranslated. *)
Lemma single_attempt_in_master_2 :
  Sample.flaky 1 1%nat (lit "cat") = Some [0x939; 0x93f] /\
  Master2._translate_meaning (Sample.flaky 1) Sample.sound (lit "cat")
    Sample.master2_0
  = (lit "cat", Master2.record_call (lit "cat") Sample.master2_0) /\
  Master2.log (Master2.record_call (lit "cat") Sample.master2_0)
  = [Call (lit "cat")].
Proof. vm_compute. repeat split. Qed.

(** master.py decorates [_translate_meaning] with the same [@retry], but the
    body never raises (its [except Exception] returns the meaning), so the
    decorated method is the body: one attempt, no sleep. *)
Lemma master_retry_never_fires (p : provider) (m : pystr) (st : Master.state) :
  Master._translate_meaning p m st = Master._translate_meaning_body p m st.
Proof.
  unfold Master._translate_meaning, Tenacity.retry. cbn [Tenacity.attempts].
  unfold Master._translate_meaning_body.
  destruct (Master.translation_cache st !! m); [reflexivity|].
  destruct (p _ m); reflexivity.
Qed.

(** ** Fingerprints *)

(** hashlib's test vectors, and a text outside ASCII. *)
Example md5_empty :
  get_content_hash [] = Ok (lit "d41d8cd98f00b204e9800998ecf8427e").
Proof. vm_compute. reflexivity. Qed.

Example md5_abc :
  get_content_hash (lit "abc") = Ok (lit "900150983cd24fb0d6963f7d28e17f72").
Proof. vm_compute. reflexivity. Qed.

Example md5_two_blocks :
  get_content_hash (repeat 120 56)
  = Ok (lit "668a72d5ba17f08e62dabcafad6db14b").
Proof. vm_compute. reflexivity. Qed.

Example md5_utf8 :
  get_content_hash [104; 0xe9; 108; 108; 111; 32; 0x939; 0x93f; 32; 0x1F600]
  = Ok (lit "9e1cd706d07b1f8164545bd541902725").
Proof. vm_compute. reflexivity. Qed.

Example surrogate_has_no_fingerprint :
  get_content_hash [0xD800] = Raise UnicodeEncodeError.
Proof. reflexivity. Qed.

Lemma hexdigit_is_hex (n : Z) : 0 <= n < 16 -> is_hex (MD5.hexdigit n) = true.
Proof.
  intros H. unfold is_hex, MD5.hexdigit.
  destruct (n <? 10) eqn:E; [apply Z.ltb_lt in E | apply Z.ltb_ge in E].
  - apply orb_true_iff; left. apply andb_true_iff; split; apply Z.leb_le; lia.
  - apply orb_true_iff; right. apply andb_true_iff; split; apply Z.leb_le; lia.
Qed.

Lemma land_255_range (w : Z) : 0 <= Z.land w 0xFF < 256.
Proof.
  change 0xFF with (Z.ones 8). rewrite Z.land_ones by lia.
  apply Z.mod_pos_bound. reflexivity.
Qed.

Lemma hex_of_byte_is_hex (b : Z) :
  0 <= b < 256 -> Forall (fun c => is_hex c = true) (MD5.hex_of_byte b).
Proof.
  intros H. unfold MD5.hex_of_byte. repeat constructor.
  - apply hexdigit_is_hex. rewrite Z.shiftr_div_pow2 by lia.
    change (2 ^ 4) with 16. split.
    + apply Z.div_pos; lia.
    + apply Z.div_lt_upper_bound; lia.
  - apply hexdigit_is_hex. change 0xF with (Z.ones 4).
    rewrite Z.land_ones by lia. apply Z.mod_pos_bound. reflexivity.
Qed.

Lemma bytes_of_word_length (n : nat) (w : Z) :
  length (MD5.bytes_of_word n w) = n.
Proof. revert w. induction n; intros w; simpl; [reflexivity|]. now rewrite IHn. Qed.

Lemma bytes_of_word_range (n : nat) (w : Z) :
  Forall (fun b => 0 <= b < 256) (MD5.bytes_of_word n w).
Proof.
  revert w. induction n; intros w; simpl; constructor.
  - apply land_255_range.
  - apply IHn.
Qed.

Lemma digest_length (msg : list Z) : length (MD5.digest msg) = 16%nat.
Proof.
  unfold MD5.digest. rewrite !length_app, !bytes_of_word_length. reflexivity.
Qed.

Lemma digest_range (msg : list Z) :
  Forall (fun b => 0 <= b < 256) (MD5.digest msg).
Proof.
  unfold MD5.digest. repeat apply Forall_app_2; apply bytes_of_word_range.
Qed.

Lemma hexdigest_length (msg : list Z) : length (MD5.hexdigest msg) = 32%nat.
Proof.
  unfold MD5.hexdigest.
  assert (G : forall bs : list Z,
             length (concat (map MD5.hex_of_byte bs)) = (2 * length bs)%nat).
  { induction bs as [|b bs IH]; simpl; [reflexivity|]. rewrite IH. lia. }
  rewrite G, digest_length. reflexivity.
Qed.

Lemma hexdigest_is_hex (msg : list Z) :
  Forall (fun c => is_hex c = true) (MD5.hexdigest msg).
Proof.
  unfold MD5.hexdigest. pose proof (digest_range msg) as R.
  induction R as [|b bs Hb _ IH]; cbn [map concat]; [constructor|].
  apply Forall_app_2; [now apply hex_of_byte_is_hex | exact IH].
Qed.

(** C5 (as amended).  The fingerprint is a function of the string: equal
    strings have equal fingerprints, and a fingerprint is a string of 32
    lowercase hexadecimal digits.  (The converse, that equal fingerprints
    come from equal strings, does not hold.) *)
Theorem fingerprint_is_a_digest (s1 s2 h1 h2 : pystr) :
  get_content_hash s1 = Ok h1 -> get_content_hash s2 = Ok h2 ->
  (s1 = s2 -> h1 = h2) /\
  length h1 = 32%nat /\ Forall (fun c => is_hex c = true) h1.
Proof.
  intros H1 H2. split; [intros ->; congruence|].
  unfold get_content_hash in H1. destruct (encode s1); inversion H1; subst.
  split; [apply hexdigest_length | apply hexdigest_is_hex].
Qed.

Lemma fingerprint_is_a_digest_witness :
  length (lit "900150983cd24fb0d6963f7d28e17f72") = 32%nat.
Proof.
  apply (fingerprint_is_a_digest (lit "abc") (lit "abc")
           (lit "900150983cd24fb0d6963f7d28e17f72")
           (lit "900150983cd24fb0d6963f7d28e17f72"));
    vm_compute; reflexivity.
Defined.

(** C5, as stated, fails: two strings that differ have the same
    fingerprint. *)
Lemma fingerprint_collision :
  Sample.textcoll_a <> Sample.textcoll_e /\
  get_content_hash Sample.textcoll_a = get_content_hash Sample.textcoll_e.
Proof.
  split.
  - intros H. apply (f_equal (fun l => nth 21 l 0)) in H. vm_compute in H.
    discriminate.
  - vm_compute. reflexivity.
Qed.

Example fingerprint_collision_value :
  get_content_hash Sample.textcoll_a
  = Ok (lit "faad49866e9498fc1719f5289e7a0269").
Proof. vm_compute. reflexivity. Qed.

(** ** Loading the cache *)

(** main.py and index.py: whatever is wrong with the cache file, the cache
    starts empty; master_2.py: so it does for a missing file and for text
    that is not JSON. *)
Lemma cache_load_tolerant :
  (forall f, (forall c, f <> Holds c) ->
     Main.load_translation_cache f = Ok ∅ /\
     Index.load_translation_cache f = Ok ∅) /\
  Master2._load_translation_cache Missing = Ok ∅ /\
  Master2._load_translation_cache Malformed = Ok ∅ /\
  Master._load_translation_cache Missing = Ok ∅.
Proof.
  repeat split; try reflexivity;
    destruct f; try reflexivity; exfalso; eapply H; reflexivity.
Qed.

(** C6.  master.py's [_load_translation_cache] catches FileNotFoundError
    only: on a cache file whose text is not JSON it raises, where
    master_2.py, main.py and index.py return an empty cache. *)
Theorem master_cache_load_raises_on_corrupt_file :
  Master._load_translation_cache Malformed = Raise JSONDecodeError /\
  Master2._load_translation_cache Malformed = Ok ∅ /\
  Main.load_translation_cache Malformed = Ok ∅ /\
  Index.load_translation_cache Malformed = Ok ∅.
Proof. repeat split. Qed.

(** A file that is not UTF-8 makes [json.load] raise UnicodeDecodeError,
    which neither master.py nor master_2.py catches. *)
Lemma undecodable_cache_file :
  Master._load_translation_cache Undecodable = Raise UnicodeDecodeError /\
  Master2._load_translation_cache Undecodable = Raise UnicodeDecodeError.
Proof. split; reflexivity. Qed.

(** ** Word entries *)

Lemma filter_kept_cons (t : pystr) (l : list pystr) :
  filter (fun x => negb (blank x)) (t :: l)
  = if kept t then t :: filter (fun x => negb (blank x)) l
    else filter (fun x => negb (blank x)) l.
Proof.
  rewrite filter_cons, kept_blank. destruct (blank t); reflexivity.
Qed.

Lemma master2_translate_meanings (p : provider) (d : Master2.disk)
  (ms : list pystr) (st : Master2.state) :
  fst (Master2.translate_meanings p d ms st)
  = filter (fun t => negb (blank t)) (Master2.translations p d ms st).
Proof.
  revert st. induction ms as [|m ms IH]; intros st; simpl; [reflexivity|].
  destruct (Master2._translate_meaning p d m st) as [t st'].
  specialize (IH st').
  destruct (Master2.translate_meanings p d ms st') as [r st''].
  simpl in IH. rewrite filter_kept_cons, <- IH. reflexivity.
Qed.

Lemma master2_translations_length (p : provider) (d : Master2.disk)
  (ms : list pystr) (st : Master2.state) :
  length (Master2.translations p d ms st) = length ms.
Proof.
  revert st. induction ms as [|m ms IH]; intros st; simpl; [reflexivity|].
  destruct (Master2._translate_meaning p d m st) as [t st'].
  simpl. now rewrite IH.
Qed.

Lemma master_translate_meaning_ok (p : provider) (m : pystr)
  (st : Master.state) :
  exists t st', Master._translate_meaning p m st = (Ok t, st').
Proof.
  rewrite master_retry_never_fires. unfold Master._translate_meaning_body.
  destruct (Master.translation_cache st !! m); [eauto|].
  destruct (p _ m); eauto.
Qed.

Lemma master_translate_meanings (p : provider) (ms : list pystr)
  (st : Master.state) :
  exists st',
    Master.translate_meanings p ms st
    = (Ok (filter (fun t => negb (blank t)) (Master.translations p ms st)), st')
    /\ length (Master.translations p ms st) = length ms.
Proof.
  revert st. induction ms as [|m ms IH]; intros st;
    cbn [Master.translate_meanings Master.translations]; [eauto|].
  destruct (master_translate_meaning_ok p m st) as (t & st1 & E). rewrite E.
  destruct (IH st1) as (st2 & E2 & L). rewrite E2. exists st2.
  rewrite filter_kept_cons. simpl. rewrite L. auto.
Qed.

(** C9.  [_process_single_entry] (master.py and master_2.py) keeps, in order,
    the translations of the English meanings that are neither empty nor
    whitespace-only, and drops the others; hence the ['meaning'] list is at
    most as long as the list of English glosses, and for some entry it is
    shorter. *)
Theorem blank_translations_are_dropped :
  (forall p d e st,
     meaning (fst (Master2._process_single_entry p d e st))
     = filter (fun t => negb (blank t))
         (Master2.translations p d (english_meanings e) st) /\
     (length (meaning (fst (Master2._process_single_entry p d e st)))
      <= length (english_meanings e))%nat) /\
  (forall p e st, exists o st',
     Master._process_single_entry p e st = (Ok o, st') /\
     meaning o
     = filter (fun t => negb (blank t))
         (Master.translations p (english_meanings e) st) /\
     (length (meaning o) <= length (english_meanings e))%nat) /\
  (exists p d e st,
     (length (meaning (fst (Master2._process_single_entry p d e st)))
      < length (english_meanings e))%nat).
Proof.
  repeat split.
  - unfold Master2._process_single_entry.
    rewrite <- master2_translate_meanings.
    destruct (Master2.translate_meanings p d _ st); reflexivity.
  - unfold Master2._process_single_entry.
    pose proof (master2_translate_meanings p d (english_meanings e) st) as E.
    destruct (Master2.translate_meanings p d _ st) as [r st']. simpl in *.
    rewrite E. etransitivity; [apply length_filter|].
    now rewrite master2_translations_length.
  - intros p e st. unfold Master._process_single_entry.
    destruct (master_translate_meanings p (english_meanings e) st)
      as (st' & E & L).
    rewrite E. eexists _, st'. split; [reflexivity|]. simpl. split; [reflexivity|].
    rewrite <- L. apply length_filter.
  - exists Sample.spaces, Sample.sound, Sample.neko, Sample.master2_0.
    vm_compute. lia.
Qed.

Example neko_in_hindi :
  fst (Master2._process_single_entry Sample.hindi Sample.sound Sample.neko
         Sample.master2_0)
  = OutEntry [[0x732B]] [[0x306D; 0x3053]] [[0x939; 0x93f]].
Proof. vm_compute. reflexivity. Qed.

(** ** Committing a batch (master_2.py) *)

Section Commit.
Variable p : provider.
Variable d : Master2.disk.

Lemma otp_app (b : bool) (ws1 ws2 : list Master2.write) :
  Master2.output_then_progress b ws1 = true ->
  (forall b', Master2.output_then_progress b' ws2 = true) ->
  Master2.output_then_progress b (ws1 ++ ws2) = true.
Proof.
  revert b. induction ws1 as [|w ws1 IH]; intros b H1 H2; simpl; [apply H2|].
  destruct w as [c f|data f|pr t f]; simpl in H1.
  - now apply IH.
  - destruct f; now apply IH.
  - apply andb_true_iff in H1 as [-> H1]. simpl. now apply IH.
Qed.

Lemma otp_cache_writes (b : bool) (ws : list Master2.write) :
  forallb Master2.cache_write ws = true -> Master2.output_then_progress b ws = true.
Proof.
  revert b. induction ws as [|w ws IH]; intros b H; simpl; [reflexivity|].
  simpl in H. apply andb_true_iff in H as [Hw H].
  destruct w; try discriminate. now apply IH.
Qed.

(** Translating writes the cache file and no other. *)
Lemma translate_meaning_writes (m : pystr) (st : Master2.state) :
  exists ws,
    Master2.writes (snd (Master2._translate_meaning p d m st))
    = Master2.writes st ++ ws /\ forallb Master2.cache_write ws = true.
Proof.
  unfold Master2._translate_meaning.
  destruct (Master2.translation_cache st !! m).
  - exists []. now rewrite app_nil_r.
  - destruct (p _ m); simpl.
    + eexists [_]. split; reflexivity.
    + exists []. now rewrite app_nil_r.
Qed.

Lemma translate_meanings_writes (ms : list pystr) (st : Master2.state) :
  exists ws,
    Master2.writes (snd (Master2.translate_meanings p d ms st))
    = Master2.writes st ++ ws /\ forallb Master2.cache_write ws = true.
Proof.
  revert st. induction ms as [|m ms IH]; intros st; simpl.
  - exists []. now rewrite app_nil_r.
  - destruct (translate_meaning_writes m st) as (w1 & E1 & C1).
    destruct (Master2._translate_meaning p d m st) as [t st1]. simpl in E1.
    destruct (IH st1) as (w2 & E2 & C2).
    destruct (Master2.translate_meanings p d ms st1) as [r st2]. simpl in *.
    exists (w1 ++ w2). rewrite E2, E1, app_assoc, forallb_app, C1, C2. auto.
Qed.

Lemma process_batch_writes (es : list entry) (st : Master2.state) :
  exists ws,
    Master2.writes (snd (Master2.process_batch p d es st))
    = Master2.writes st ++ ws /\ forallb Master2.cache_write ws = true.
Proof.
  revert st. induction es as [|e es IH]; intros st; simpl.
  - exists []. now rewrite app_nil_r.
  - unfold Master2._process_single_entry.
    destruct (translate_meanings_writes (english_meanings e) st) as (w1 & E1 & C1).
    destruct (Master2.translate_meanings p d _ st) as [r st1]. simpl in E1.
    destruct (IH st1) as (w2 & E2 & C2).
    destruct (Master2.process_batch p d es st1) as [os st2]. simpl in *.
    exists (w1 ++ w2). rewrite E2, E1, app_assoc, forallb_app, C1, C2. auto.
Qed.

(** What one commit writes, and what it leaves on disk. *)
Lemma save_batch_progress_spec (batch : list out_entry) (processed total : Z)
  (st : Master2.state) :
  let n := length (Master2.writes st) in
  let data := Master2.processed_data st ++ batch in
  let st' := Master2._save_batch_progress d batch processed total st in
  Master2.processed_data st' = data /\
  match d n with
  | Master2.NoFault =>
      Master2.writes st'
      = Master2.writes st
        ++ [Master2.WriteOutput data Master2.NoFault;
            Master2.WriteProgress processed total (d (Datatypes.S n))] /\
      Master2.output_file st' = Holds data /\
      Master2.progress_file st'
      = Master2.write_file (Master2.progress_file st)
          (Master2.Progress (Some processed) (Some total)) (d (Datatypes.S n))
  | f =>
      Master2.writes st' = Master2.writes st ++ [Master2.WriteOutput data f] /\
      Master2.output_file st'
      = Master2.write_file (Master2.output_file st) data f /\
      Master2.progress_file st' = Master2.progress_file st
  end.
Proof.
  unfold Master2._save_batch_progress, Master2.write_output. simpl.
  destruct (d (length (Master2.writes st))) eqn:E; simpl;
    rewrite ?length_app, ?Nat.add_1_r, <- ?app_assoc; auto.
Qed.

Lemma save_batch_progress_otp (batch : list out_entry) (processed total : Z)
  (st : Master2.state) :
  exists ws,
    Master2.writes (Master2._save_batch_progress d batch processed total st)
    = Master2.writes st ++ ws /\
    forall b, Master2.output_then_progress b ws = true.
Proof.
  pose proof (save_batch_progress_spec batch processed total st) as [_ H].
  simpl in H.
  destruct (d (length (Master2.writes st))); destruct H as (-> & _);
    eexists; (split; [reflexivity|]); intros b; reflexivity.
Qed.

Lemma batch_loop_otp (words : list entry) (batch_size total : Z)
  (nums : list Z) (st : Master2.state) :
  exists ws,
    Master2.writes (Master2.batch_loop p d words batch_size total nums st)
    = Master2.writes st ++ ws /\
    forall b, Master2.output_then_progress b ws = true.
Proof.
  revert st. induction nums as [|n nums IH]; intros st; simpl.
  - exists []. rewrite app_nil_r. auto.
  - unfold Master2.batch_body.
    match goal with |- context [Master2.process_batch p d ?es st] =>
      destruct (process_batch_writes es st) as (w1 & E1 & C1);
      destruct (Master2.process_batch p d es st) as [os st1]
    end.
    simpl in E1.
    destruct (save_batch_progress_otp os (n + 1) total st1) as (w2 & E2 & C2).
    assert (C12 : forall b, Master2.output_then_progress b (w1 ++ w2) = true).
    { intros b. apply otp_app; [now apply otp_cache_writes | exact C2]. }
    destruct (_ <=? _).
    + exists (w1 ++ w2). rewrite E2, E1, app_assoc. auto.
    + destruct (IH (Master2._save_batch_progress d os (n + 1) total st1))
        as (w3 & E3 & C3).
      exists ((w1 ++ w2) ++ w3). rewrite E3, E2, E1, !app_assoc.
      split; [reflexivity|]. intros b. apply otp_app; auto.
Qed.

End Commit.

(** C2.  [_save_batch_progress] writes the output file first; when that
    write goes through, the progress record is written next, and when it
    raises, nothing more is written and the progress file is as it was.
    Over a whole run of the batch loop, every write of the progress file
    comes right after a write of the output file that went through. *)
Theorem output_then_progress_order (p : provider) (d : Master2.disk) :
  (forall batch processed total st,
     d (length (Master2.writes st)) = Master2.NoFault ->
     Master2.writes (Master2._save_batch_progress d batch processed total st)
     = Master2.writes st
       ++ [Master2.WriteOutput (Master2.processed_data st ++ batch)
             Master2.NoFault;
           Master2.WriteProgress processed total
             (d (Datatypes.S (length (Master2.writes st))))] /\
     Master2.output_file
       (Master2._save_batch_progress d batch processed total st)
     = Holds (Master2.processed_data st ++ batch)) /\
  (forall batch processed total st,
     d (length (Master2.writes st)) <> Master2.NoFault ->
     Master2.writes (Master2._save_batch_progress d batch processed total st)
     = Master2.writes st
       ++ [Master2.WriteOutput (Master2.processed_data st ++ batch)
             (d (length (Master2.writes st)))] /\
     Master2.progress_file
       (Master2._save_batch_progress d batch processed total st)
     = Master2.progress_file st) /\
  (forall words batch_size total nums st, exists ws,
     Master2.writes (Master2.batch_loop p d words batch_size total nums st)
     = Master2.writes st ++ ws /\
     Master2.output_then_progress false ws = true).
Proof.
  repeat split.
  - pose proof (save_batch_progress_spec d batch processed total st) as [_ S].
    simpl in S. rewrite H in S. apply S.
  - pose proof (save_batch_progress_spec d batch processed total st) as [_ S].
    simpl in S. rewrite H in S. apply S.
  - pose proof (save_batch_progress_spec d batch processed total st) as [_ S].
    simpl in S. destruct (d (length (Master2.writes st))); [congruence| |]; apply S.
  - pose proof (save_batch_progress_spec d batch processed total st) as [_ S].
    simpl in S. destruct (d (length (Master2.writes st))); [congruence| |]; apply S.
  - intros words batch_size total nums st.
    destruct (batch_loop_otp p d words batch_size total nums st) as (ws & E & C).
    exists ws. auto.
Qed.

Lemma output_then_progress_order_witness :
  Master2.progress_file
    (Master2._save_batch_progress Sample.first_write_fails
       [OutEntry [] [] []] 1 1 Sample.master2_0)
  = Master2.progress_file Sample.master2_0.
Proof.
  apply (output_then_progress_order Sample.hindi Sample.first_write_fails).
  vm_compute. discriminate.
Defined.

(** A commit whose output write fails midway: the output file is truncated,
    the progress file is not written. *)
Example failed_commit :
  Master2.writes
    (Master2._save_batch_progress Sample.first_write_fails
       [OutEntry [] [] []] 1 1 Sample.master2_0)
  = [Master2.WriteOutput [OutEntry [] [] []] Master2.DumpFails] /\
  Master2.progress_file
    (Master2._save_batch_progress Sample.first_write_fails
       [OutEntry [] [] []] 1 1 Sample.master2_0) = Missing /\
  Master2.output_file
    (Master2._save_batch_progress Sample.first_write_fails
       [OutEntry [] [] []] 1 1 Sample.master2_0) = Malformed.
Proof. repeat split. Qed.

(** ** Reasoning on computations *)

Section Hoare.
Context {S : Type}.

Lemma preserves_ret {A} (P : S -> Prop) (a : A) : preserves P (ret a).
Proof. intros st H. exact H. Qed.

Lemma preserves_raise {A} (P : S -> Prop) (e : exn) :
  preserves P (raise (A := A) e).
Proof. intros st H. exact H. Qed.

Lemma preserves_bind {A B} (P : S -> Prop) (m : M S A) (k : A -> M S B) :
  preserves P m -> (forall a, preserves P (k a)) -> preserves P (bind m k).
Proof.
  intros Hm Hk st H. unfold bind. specialize (Hm st H).
  destruct (m st) as [[a|e] st']; simpl in *; [now apply Hk | exact Hm].
Qed.

Lemma preserves_mapM {A B} (P : S -> Prop) (f : A -> M S B) (l : list A) :
  Forall (fun x => preserves P (f x)) l -> preserves P (mapM f l).
Proof.
  induction 1 as [|x l Hx _ IH]; simpl; [apply preserves_ret|].
  apply preserves_bind; [exact Hx|]. intros y.
  apply preserves_bind; [exact IH|]. intros ys. apply preserves_ret.
Qed.

Lemma preserves_alterM (P : S -> Prop) (f : json -> M S json) (key : pystr)
  (ms : list (pystr * json)) :
  (forall v, member key ms = Some v -> preserves P (f v)) ->
  preserves P (alterM f key ms).
Proof.
  induction ms as [|[k v] ms IH]; intros H; simpl; [apply preserves_ret|].
  simpl in H. destruct (bool_decide (k = key)).
  - apply preserves_bind; [now apply H|]. intros v'. apply preserves_ret.
  - apply preserves_bind; [now apply IH|]. intros r. apply preserves_ret.
Qed.






End Hoare.

(** ** Induction on documents *)

Lemma json_induction (P : json -> Prop) :
  P JNull -> (forall b, P (JBool b)) -> (forall n, P (JNum n)) ->
  (forall s, P (JStr s)) ->
  (forall items, Forall P items -> P (JArr items)) ->
  (forall members, Forall (fun kv => P (snd kv)) members -> P (JObj members)) ->
  forall j, P j.
Proof.
  intros Hnull Hbool Hnum Hstr Harr Hobj.
  fix IH 1. intros [| b | n | s | items | members].
  - exact Hnull.
  - apply Hbool.
  - apply Hnum.
  - apply Hstr.
  - apply Harr. induction items as [|x items IHl]; constructor;
      [apply IH | exact IHl].
  - apply Hobj. induction members as [|[k v] members IHl]; constructor;
      [apply IH | exact IHl].
Qed.

Lemma member_Forall (P : json -> Prop) (key : pystr)
  (ms : list (pystr * json)) (v : json) :
  Forall (fun kv => P (snd kv)) ms -> member key ms = Some v -> P v.
Proof.
  induction 1 as [|[k w] ms Hw _ IH]; simpl; [discriminate|].
  destruct (bool_decide (k = key)); [|exact IH].
  intros E; inversion E; subst. exact Hw.
Qed.

(** For the walkers of content items: an item is reached from another
    through an array held by one of its members. *)
Lemma item_induction (P : json -> Prop) :
  (forall j,
     (forall ms key subs sub,
        j = JObj ms -> member key ms = Some (JArr subs) -> In sub subs ->
        P sub) -> P j) ->
  forall j, P j.
Proof.
  intros H j.
  assert (G : P j /\ match j with JArr l => Forall P l | _ => True end);
    [|exact (proj1 G)].
  induction j as [| | | |items IH|ms IH] using json_induction;
    try (split; [apply H; intros; discriminate | exact I]).
  - split; [apply H; intros; discriminate|].
    eapply Forall_impl; [exact IH|]. intros x Hx. exact (proj1 Hx).
  - split; [|exact I]. apply H. intros ms' key subs sub E Hm Hin.
    inversion E; subst ms'. clear E.
    pose proof (member_Forall
                  (fun v => P v /\
                            match v with JArr l => Forall P l | _ => True end)
                  _ _ _ IH Hm) as [_ G].
    rewrite List.Forall_forall in G. now apply G.
Qed.

(** ** The leaves and the walkers *)

Lemma item_leaves_obj (ms : list (pystr * json)) :
  item_leaves (JObj ms)
  = match member (lit "content") ms with
    | Some (JStr s) => [s]
    | Some (JArr subs) => flat_map item_leaves subs
    | _ => []
    end.
Proof.
  induction ms as [|[k v] ms IH]; [reflexivity|].
  cbn [member]. destruct (bool_decide (k = lit "content")) eqn:E.
  - cbn [item_leaves]. rewrite E. reflexivity.
  - rewrite <- IH. cbn [item_leaves]. rewrite E. reflexivity.
Qed.



Section AlterM.
Context {S : Type}.
Variable f : json -> M S json.
Variable key : pystr.


End AlterM.

Section IndexWalk.

(** A property of the state that [translate_text] keeps on the leaves of an
    item is kept by [_process_content_item]. *)
Lemma index_item_preserves (P : Index.state -> Prop) (item : json) :
  (forall t, In t (item_leaves item) -> preserves P (Index.translate_text t)) ->
  preserves P (Index._process_content_item item).
Proof.
  induction item as [item IH] using item_induction. intros H.
  destruct item as [| | | | |ms]; try apply preserves_ret.
  cbn [Index._process_content_item]. rewrite item_leaves_obj in H.
  apply preserves_bind; [|intros r; apply preserves_ret].
  apply preserves_alterM. intros v Hv. rewrite Hv in H.
  destruct v as [| | |s|subs|]; try apply preserves_ret.
  - apply preserves_bind; [|intros r; apply preserves_ret].
    apply H. now left.
  - apply preserves_bind; [|intros r; apply preserves_ret].
    apply preserves_mapM. apply List.Forall_forall. intros sub Hsub.
    apply (IH ms (lit "content") subs sub eq_refl Hv Hsub).
    intros t Ht. apply H. apply in_flat_map. eauto.
Qed.




Lemma index_process_item_preserves (P : Index.state -> Prop) (item : json) :
  (forall t, In t (flat_map item_leaves (content_items item)) ->
     preserves P (Index.translate_text t)) ->
  preserves P (Index.process_item item).
Proof.
  intros H. unfold Index.process_item. unfold content_items in H.
  destruct (is_structured_content item) as [[|]|e] eqn:E;
    try apply preserves_ret; try apply preserves_raise.
  destruct item as [| | | | |ms]; try apply preserves_ret.
  destruct (member (lit "content") ms) as [[| | | |cs|]|];
    try apply preserves_ret.
  apply preserves_bind; [|intros r; apply preserves_ret].
  apply preserves_mapM, List.Forall_forall. intros c Hc.
  apply index_item_preserves. intros t Ht. apply H, in_flat_map. eauto.
Qed.

Lemma index_process_entry_preserves (P : Index.state -> Prop) (entry : json) :
  (forall t, In t (entry_leaves entry) -> preserves P (Index.translate_text t)) ->
  preserves P (Index.process_entry entry).
Proof.
  intros H. unfold Index.process_entry. unfold entry_leaves, entry_items in H.
  destruct (sixth_field entry) as [[items|]|e];
    try apply preserves_ret; try apply preserves_raise.
  apply preserves_bind; [|intros r; apply preserves_ret].
  apply preserves_mapM, List.Forall_forall. intros item Hitem.
  apply index_process_item_preserves. intros t Ht.
  apply H, in_flat_map. eauto.
Qed.

(** A property of the state that [translate_text] keeps on the leaves of a
    document is kept by a pass of [_process_content] over it. *)
Lemma index_pass_preserves (P : Index.state -> Prop) (data : json) :
  (forall t, In t (doc_leaves data) -> preserves P (Index.translate_text t)) ->
  preserves P (Index._process_content data).
Proof.
  intros H. unfold Index._process_content. unfold doc_leaves, doc_entries in H.
  destruct (iterate data) as [entries|e]; [|apply preserves_raise].
  apply preserves_bind; [|intros r; apply preserves_ret].
  apply preserves_mapM, List.Forall_forall. intros entry Hentry.
  apply index_process_entry_preserves. intros t Ht.
  apply H, in_flat_map. eauto.
Qed.




End IndexWalk.

(** ** The queue and the workers (index.py) *)



(** [translate_text] never touches the cache, the files or the log. *)
Lemma index_translate_text_frame (text : pystr) (st : Index.state) :
  Index.translation_cache (snd (Index.translate_text text st))
  = Index.translation_cache st /\
  Index.cache_file (snd (Index.translate_text text st)) = Index.cache_file st /\
  Index.log (snd (Index.translate_text text st)) = Index.log st.
Proof.
  unfold Index.translate_text. destruct (blank text); [auto|].
  destruct (get_content_hash text) as [h|e]; [|auto].
  destruct (Index.translation_cache st !! h); [auto|].
  destruct (any_ascii text); auto.
Qed.

Section Pool.
Variable p : provider.
Variable batch_size : Z.
Hypothesis p_total : forall n t, is_Some (p n t).


Lemma store_spec (trs hs : list pystr) (st : Index.state) :
  length trs = length hs ->
  (forall k, Index.cached k st -> Index.cached k (Index.store trs hs st)) /\
  (forall h, In h hs -> Index.cached h (Index.store trs hs st)) /\
  Index.translation_queue (Index.store trs hs st) = Index.translation_queue st.
Proof.
  revert hs st. induction trs as [|tr trs IH]; intros [|h hs] st L;
    try discriminate; simpl.
  - repeat split; auto. intros h [].
  - injection L as L. destruct (IH hs (Index.cache_put h tr st) L) as (M1 & M2 & Q).
    assert (Mono : forall k, Index.cached k st ->
                     Index.cached k (Index.cache_put h tr st)).
    { intros k [v Hk]. unfold Index.cached. simpl.
      destruct (decide (h = k)) as [->|N].
      - rewrite lookup_insert_eq. eauto.
      - rewrite lookup_insert_ne by exact N. eauto. }
    split; [intros k Hk; apply M1, Mono, Hk|].
    split; [|exact Q].
    intros k [<-|Hk]; [|now apply M2].
    apply M1. unfold Index.cached. simpl. rewrite lookup_insert_eq. eauto.
Qed.












(** *** Where the cache entries come from *)









End Pool.


(** ** The two passes of index.py *)










(** The sample term bank through index.py, with two workers taking turns:
    after the first pass the document is as it was, the output file holds
    the answers. *)
Example term_bank_through_index :
  fst (Index._process_content Sample.term_bank Sample.index0)
  = Ok Sample.term_bank /\
  calls (Index.log
           (fst (Index.process_file Sample.hindi 1 [0; 1; 0]%nat 2
                   (Holds Sample.term_bank) Missing Sample.index0)))
  = [lit "cat"; lit "a pet"] /\
  snd (Index.process_file Sample.hindi 1 [0; 1; 0]%nat 2
         (Holds Sample.term_bank) Missing Sample.index0)
  = Holds (map_doc (fun _ => [0x939; 0x93f]) Sample.term_bank).
Proof. vm_compute. repeat split. Qed.

(** ** Two runs side by side *)

Section Agree.
Context {S : Type}.
Variable P : S -> Prop.





End Agree.

Section MainWalk.
Variables p1 p2 : provider.
Variable c : gmap pystr pystr.
Variable cf : file (gmap pystr pystr).
Variable k : list pystr.


Lemma untouched_record (e : event) (st : Main.state) :
  is_call e = false -> (Main.untouched c cf k) st -> (Main.untouched c cf k) (Main.record e st).
Proof.
  intros He (H1 & H2 & H3). repeat split; auto. simpl.
  rewrite calls_app, H3. destruct e; try discriminate; apply app_nil_r.
Qed.










End MainWalk.

(** ** Running a pipeline again on a cache that has every leaf *)







(** ** The batch loop (master_2.py) *)

Lemma py_range_nil (start stop : Z) :
  stop <= start -> Master2.py_range start stop = [].
Proof.
  intros H. unfold Master2.py_range.
  replace (Z.to_nat (stop - start)) with 0%nat by lia. reflexivity.
Qed.

Lemma py_range_cons (start stop : Z) :
  start < stop ->
  Master2.py_range start stop = start :: Master2.py_range (start + 1) stop.
Proof.
  intros H. unfold Master2.py_range.
  replace (Z.to_nat (stop - start))
    with (Datatypes.S (Z.to_nat (stop - (start + 1)))) by lia.
  cbn [seq map]. f_equal; [lia|].
  rewrite <- seq_shift, map_map. apply map_ext. intros i. lia.
Qed.

(** A batch is the next [batch_size] words. *)
Lemma py_slice_batch {A} (l : list A) (a b : Z) :
  0 <= a -> 0 < b ->
  Master2.py_slice l a (Z.min (a + b) (Z.of_nat (length l)))
  = take (Z.to_nat b) (drop (Z.to_nat a) l).
Proof.
  intros Ha Hb. unfold Master2.py_slice, Master2.slice_bound.
  destruct (a <? 0) eqn:E1; [apply Z.ltb_lt in E1; lia|].
  destruct (Z.min (a + b) (Z.of_nat (length l)) <? 0) eqn:E2;
    [apply Z.ltb_lt in E2; lia|].
  destruct (Z.le_gt_cases (Z.of_nat (length l)) a) as [Hge|Hlt].
  - rewrite !drop_ge by lia. now rewrite !take_nil.
  - replace (Z.to_nat (Z.min a (Z.of_nat (length l)))) with (Z.to_nat a) by lia.
    destruct (Z.le_gt_cases (a + b) (Z.of_nat (length l))) as [H1|H1].
    + f_equal. lia.
    + rewrite !take_ge; [reflexivity| |]; rewrite length_drop; lia.
Qed.

Lemma ceil_div_spec (n b : Z) :
  0 <= n -> 0 < b ->
  n <= (n + b - 1) / b * b /\ ((n + b - 1) / b - 1) * b < n.
Proof.
  intros Hn Hb.
  pose proof (Z.div_mod (n + b - 1) b ltac:(lia)) as D.
  pose proof (Z.mod_pos_bound (n + b - 1) b Hb) as M. nia.
Qed.

Section BatchLoop.
Variable p : provider.
Variable d : Master2.disk.

Lemma translate_meaning_core (m : pystr) (st st' : Master2.state) :
  Master2.core st = Master2.core st' ->
  fst (Master2._translate_meaning p d m st)
  = fst (Master2._translate_meaning p d m st') /\
  Master2.core (snd (Master2._translate_meaning p d m st))
  = Master2.core (snd (Master2._translate_meaning p d m st')).
Proof.
  unfold Master2.core. intros E. inversion E as [[Ec El]].
  unfold Master2._translate_meaning. rewrite Ec, El.
  destruct (Master2.translation_cache st' !! m); [auto|].
  destruct (p _ m); simpl; rewrite ?Ec, ?El; auto.
Qed.

Lemma translate_meanings_core (ms : list pystr) (st st' : Master2.state) :
  Master2.core st = Master2.core st' ->
  fst (Master2.translate_meanings p d ms st)
  = fst (Master2.translate_meanings p d ms st') /\
  Master2.core (snd (Master2.translate_meanings p d ms st))
  = Master2.core (snd (Master2.translate_meanings p d ms st')).
Proof.
  revert st st'. induction ms as [|m ms IH]; intros st st' E; simpl; [auto|].
  destruct (translate_meaning_core m st st' E) as [E1 E2].
  destruct (Master2._translate_meaning p d m st) as [t s1].
  destruct (Master2._translate_meaning p d m st') as [t' s1'].
  simpl in E1, E2. subst t'.
  destruct (IH s1 s1' E2) as [E3 E4].
  destruct (Master2.translate_meanings p d ms s1) as [r s2].
  destruct (Master2.translate_meanings p d ms s1') as [r' s2'].
  simpl in *. subst r'. auto.
Qed.

Lemma process_batch_core (es : list entry) (st st' : Master2.state) :
  Master2.core st = Master2.core st' ->
  fst (Master2.process_batch p d es st) = fst (Master2.process_batch p d es st')
  /\ Master2.core (snd (Master2.process_batch p d es st))
     = Master2.core (snd (Master2.process_batch p d es st')).
Proof.
  revert st st'. induction es as [|e es IH]; intros st st' E; simpl; [auto|].
  unfold Master2._process_single_entry.
  destruct (translate_meanings_core (english_meanings e) st st' E) as [E1 E2].
  destruct (Master2.translate_meanings p d _ st) as [r s1].
  destruct (Master2.translate_meanings p d _ st') as [r' s1'].
  simpl in E1, E2. subst r'.
  destruct (IH s1 s1' E2) as [E3 E4].
  destruct (Master2.process_batch p d es s1) as [os s2].
  destruct (Master2.process_batch p d es s1') as [os' s2'].
  simpl in *. subst os'. auto.
Qed.

Lemma process_batch_app (es1 es2 : list entry) (st : Master2.state) :
  Master2.process_batch p d (es1 ++ es2) st
  = (fst (Master2.process_batch p d es1 st)
     ++ fst (Master2.process_batch p d es2
               (snd (Master2.process_batch p d es1 st))),
     snd (Master2.process_batch p d es2
            (snd (Master2.process_batch p d es1 st)))).
Proof.
  revert st. induction es1 as [|e es1 IH]; intros st; simpl.
  - now destruct (Master2.process_batch p d es2 st).
  - destruct (Master2._process_single_entry p d e st) as [o s1].
    rewrite IH.
    destruct (Master2.process_batch p d es1 s1) as [os s2]. reflexivity.
Qed.

(** Translating touches neither the data produced so far nor the output and
    progress files. *)
Lemma process_batch_frame (es : list entry) (st : Master2.state) :
  Master2.processed_data (snd (Master2.process_batch p d es st))
  = Master2.processed_data st /\
  Master2.output_file (snd (Master2.process_batch p d es st))
  = Master2.output_file st /\
  Master2.progress_file (snd (Master2.process_batch p d es st))
  = Master2.progress_file st /\
  Master2.processing_progress (snd (Master2.process_batch p d es st))
  = Master2.processing_progress st.
Proof.
  assert (T : forall m s,
             let s' := snd (Master2._translate_meaning p d m s) in
             Master2.processed_data s' = Master2.processed_data s /\
             Master2.output_file s' = Master2.output_file s /\
             Master2.progress_file s' = Master2.progress_file s /\
             Master2.processing_progress s' = Master2.processing_progress s).
  { intros m s. unfold Master2._translate_meaning.
    destruct (Master2.translation_cache s !! m); [simpl; auto|].
    destruct (p _ m); simpl; auto. }
  assert (Tm : forall ms s,
             let s' := snd (Master2.translate_meanings p d ms s) in
             Master2.processed_data s' = Master2.processed_data s /\
             Master2.output_file s' = Master2.output_file s /\
             Master2.progress_file s' = Master2.progress_file s /\
             Master2.processing_progress s' = Master2.processing_progress s).
  { induction ms as [|m ms IH]; intros s; simpl; [auto|].
    pose proof (T m s) as Hm.
    destruct (Master2._translate_meaning p d m s) as [t s1].
    pose proof (IH s1) as Hr.
    destruct (Master2.translate_meanings p d ms s1) as [r s2].
    simpl in *. intuition congruence. }
  revert st. induction es as [|e es IH]; intros st; simpl; [auto|].
  unfold Master2._process_single_entry.
  pose proof (Tm (english_meanings e) st) as He.
  destruct (Master2.translate_meanings p d _ st) as [r s1].
  pose proof (IH s1) as Hr.
  destruct (Master2.process_batch p d es s1) as [os s2].
  simpl in *. intuition congruence.
Qed.

Lemma save_batch_progress_core (batch : list out_entry) (processed total : Z)
  (st : Master2.state) :
  Master2.core (Master2._save_batch_progress d batch processed total st) = Master2.core st /\
  Master2.processing_progress
    (Master2._save_batch_progress d batch processed total st)
  = Master2.processing_progress st.
Proof.
  unfold Master2._save_batch_progress, Master2.write_output.
  destruct (d _); auto.
Qed.

(** The loop over the batches [start .. total - 1]: the entries produced
    are those of the words from index [start * batch_size] on, processed in
    order. *)
Lemma batch_loop_resumes (words : list entry) (batch_size total : Z)
  (remaining : nat) (start : Z) (st : Master2.state) :
  0 < batch_size ->
  total = (Z.of_nat (length words) + batch_size - 1) / batch_size ->
  0 <= start -> remaining = Z.to_nat (total - start) ->
  Master2.processed_data
    (Master2.batch_loop p d words batch_size total
       (Master2.py_range start total) st)
  = Master2.processed_data st
    ++ fst (Master2.process_batch p d
              (drop (Z.to_nat (start * batch_size)) words) st).
Proof.
  intros Hb Ht.
  destruct (ceil_div_spec (Z.of_nat (length words)) batch_size) as [C1 C2];
    [lia | exact Hb |]. rewrite <- Ht in C1, C2.
  revert start st. induction remaining as [|k IH]; intros start st Hs Hk.
  - rewrite py_range_nil by lia. simpl.
    rewrite drop_ge by nia. simpl. now rewrite app_nil_r.
  - rewrite py_range_cons by lia. cbn [Master2.batch_loop].
    unfold Master2.batch_body.
    rewrite py_slice_batch by (try nia; lia).
    set (rest := drop (Z.to_nat (start * batch_size)) words).
    set (batch := take (Z.to_nat batch_size) rest).
    pose proof (process_batch_frame batch st) as (F1 & _).
    destruct (Master2.process_batch p d batch st) as [os s1] eqn:E1.
    cbn [snd] in F1.
    pose proof (save_batch_progress_spec d os (start + 1) total s1) as [S1 _].
    pose proof (save_batch_progress_core os (start + 1) total s1) as [S2 _].
    cbn zeta in S1.
    set (s2 := Master2._save_batch_progress d os (start + 1) total s1) in *.
    destruct (Z.of_nat (length words)
              <=? Z.min (start * batch_size + batch_size)
                    (Z.of_nat (length words))) eqn:Br.
    + apply Z.leb_le in Br.
      assert (Eb : batch = rest).
      { unfold batch. apply take_ge. unfold rest. rewrite length_drop. lia. }
      rewrite S1, F1. rewrite <- Eb, E1. reflexivity.
    + apply Z.leb_gt in Br.
      rewrite (IH (start + 1) s2) by lia.
      rewrite S1, F1, <- app_assoc. f_equal.
      assert (Er : rest = batch ++ drop (Z.to_nat ((start + 1) * batch_size))
                                     words).
      { unfold batch. rewrite <- (take_drop (Z.to_nat batch_size) rest) at 1.
        f_equal. unfold rest. rewrite drop_drop. f_equal. nia. }
      rewrite Er, process_batch_app, E1. cbn [fst snd]. f_equal.
      apply process_batch_core. now rewrite S2.
Qed.

End BatchLoop.

Section Settled.
Variable p : provider.
Variable d : Master2.disk.







End Settled.

Lemma process_dictionary_unfold (p : provider) (d : Master2.disk)
  (words : list entry) (batch_size max_workers : Z) (st : Master2.state) :
  0 < batch_size -> 0 < max_workers ->
  let total := (Z.of_nat (length words) + batch_size - 1) / batch_size in
  let start :=
    Master2.get0 (Master2.processed_batches (Master2.processing_progress st)) in
  let st1 :=
    if Master2.get0 (Master2.total_batches (Master2.processing_progress st))
       =? total
    then st else Master2._save_processing_progress d start total st in
  Master2.process_dictionary p d (Holds words) batch_size max_workers st
  = Master2.batch_loop p d words batch_size total
      (Master2.py_range start total) st1.
Proof.
  intros Hb Hw total start st1. unfold Master2.process_dictionary.
  cbn [json_load].
  destruct (batch_size =? 0) eqn:E0; [apply Z.eqb_eq in E0; lia|].
  fold total. fold start. fold st1.
  destruct (Z.le_gt_cases total start) as [H|H].
  - rewrite py_range_nil by exact H. reflexivity.
  - rewrite (py_range_cons start total) by lia.
    destruct (max_workers <=? 0) eqn:Ew; [apply Z.leb_le in Ew; lia|].
    reflexivity.
Qed.




(** The interrupted run of the sample picks up at batch 1: the progress
    record is rewritten as (1, 2), the third word is translated and
    appended, and the record ends at (2, 2). *)
Example resumed_run :
  Master2.writes
    (Master2.process_dictionary Sample.hindi Sample.sound
       (Holds [Sample.neko; Sample.neko; Sample.neko]) 2 4 Sample.resumed)
  = [Master2.WriteProgress 1 2 Master2.NoFault;
     Master2.WriteCache (<[lit "cat" := [0x939; 0x93f]]> ∅) Master2.NoFault;
     Master2.WriteOutput
       [OutEntry [] [] []; OutEntry [[0x732B]] [[0x306D; 0x3053]] [[0x939; 0x93f]]]
       Master2.NoFault;
     Master2.WriteProgress 2 2 Master2.NoFault] /\
  calls (Master2.log
           (Master2.process_dictionary Sample.hindi Sample.sound
              (Holds [Sample.neko; Sample.neko; Sample.neko]) 2 4
              Sample.resumed)) = [lit "cat"].
Proof. vm_compute. split; reflexivity. Qed.

(** ** Idempotence on a cache that has every leaf *)



(** The sample term bank through main.py on the full cache: both texts are
    replaced by the cached values, with a provider that is down. *)
Example term_bank_from_cache :
  snd (Main.process_file Sample.down (Holds Sample.term_bank) Missing
         (Main.init (Holds Sample.full_cache)))
  = Holds (map_doc (resolve Sample.full_cache) Sample.term_bank).
Proof. vm_compute. reflexivity. Qed.

(** What is left on the queue of index.py after a run on the full cache:
    the second pass queues the translations themselves when they hold an
    ASCII character and are not keys of the cache. *)
Example second_pass_queues_translations :
  Index.translation_queue
    (fst (Index.process_file Sample.down 50 [] 4
            (Holds Sample.term_bank) Missing
            (Index.init
               (Holds (<[lit "d077f244def8a70e5ea758bd8352fcd8"
                         := lit "billi !"]> Sample.full_cache)))))
  = [Some (lit "billi !", lit "095c756135292c919ea14aaa721b85b5")].
Proof. vm_compute. reflexivity. Qed.

(** * Further properties *)

(** ** What a translation leaves behind (main.py) *)

(** The body of [translate_text] adds one call to the log or none, and only
    adds to the cache. *)
Lemma main_body_effect (p : provider) (text : pystr) (st : Main.state) :
  exists evs,
    Main.log (snd (Main.translate_text_body p text st)) = Main.log st ++ evs /\
    (evs = [] \/ evs = [Call text]) /\
    Main.translation_cache st
    ⊆ Main.translation_cache (snd (Main.translate_text_body p text st)).
Proof.
  assert (N : forall r : result pystr,
             exists evs,
               Main.log (snd (r, st)) = Main.log st ++ evs /\
               (evs = [] \/ evs = [Call text]) /\
               Main.translation_cache st ⊆ Main.translation_cache (snd (r, st))).
  { intros r. exists []. simpl. rewrite app_nil_r. auto. }
  unfold Main.translate_text_body.
  destruct (blank text); [apply N|].
  destruct (get_content_hash text) as [h|e]; [|apply N].
  destruct (Main.translation_cache st !! h) eqn:C; [apply N|].
  destruct (isascii text); [|apply N].
  destruct (p _ text); exists [Call text]; simpl; repeat split; auto.
  now apply insert_subseteq.
Qed.






(** X2.  main.py: whatever the text, the state and the provider, one call of
    [translate_text] makes at most three provider calls, all on the text
    itself, and sleeps at most twice, four seconds each time; it removes
    and changes no entry of the cache. *)
Theorem main_translate_text_effort (p : provider) (text : pystr)
  (st : Main.state) :
  exists evs,
    Main.log (snd (Main.translate_text p text st)) = Main.log st ++ evs /\
    Forall (fun e => e = Call text \/ e = Sleep 4) evs /\
    (ncalls evs <= 3)%nat /\
    (length (filter (fun e => negb (is_call e)) evs) <= 2)%nat /\
    Main.translation_cache st
    ⊆ Main.translation_cache (snd (Main.translate_text p text st)).
Proof.
  assert (F : forall evs, evs = [] \/ evs = [Call text] ->
            Forall (fun e => e = Call text \/ e = Sleep 4) evs /\
            (ncalls evs <= 1)%nat /\
            length (filter (fun e => negb (is_call e)) evs) = 0%nat).
  { intros evs [->| ->]; repeat split; auto. }
  unfold Main.translate_text, Tenacity.retry. cbn [Tenacity.attempts].
  change (Tenacity.wait_exponential 1 4 10 1) with 4.
  change (Tenacity.wait_exponential 1 4 10 (1 + 1)) with 4.
  destruct (main_body_effect p text st) as (ev1 & L1 & K1 & M1).
  destruct (F ev1 K1) as (A1 & B1 & D1).
  destruct (Main.translate_text_body p text st) as [[v|e] s1]; cbn [snd] in *.
  { exists ev1. repeat split; auto; lia. }
  set (s1' := Main.record (Sleep 4) s1).
  destruct (main_body_effect p text s1') as (ev2 & L2 & K2 & M2).
  destruct (F ev2 K2) as (A2 & B2 & D2).
  assert (R2 : Main.log (snd (Main.translate_text_body p text s1'))
               = Main.log st ++ (ev1 ++ [Sleep 4] ++ ev2)).
  { rewrite L2. simpl. rewrite L1, <- !app_assoc. reflexivity. }
  assert (G2 : Forall (fun e => e = Call text \/ e = Sleep 4)
                 (ev1 ++ [Sleep 4] ++ ev2)).
  { apply Forall_app. split; [exact A1|]. constructor; auto. }
  destruct (Main.translate_text_body p text s1') as [[v|e2] s2];
    cbn [snd] in *.
  { exists (ev1 ++ [Sleep 4] ++ ev2).
    split; [exact R2|]. split; [exact G2|].
    rewrite !ncalls_app, !filter_app, !length_app, D1, D2.
    unfold ncalls at 2. simpl.
    split; [lia|]. split; [lia|]. etransitivity; [exact M1|exact M2]. }
  set (s2' := Main.record (Sleep 4) s2).
  destruct (main_body_effect p text s2') as (ev3 & L3 & K3 & M3).
  destruct (F ev3 K3) as (A3 & B3 & D3).
  exists ((ev1 ++ [Sleep 4] ++ ev2) ++ [Sleep 4] ++ ev3).
  assert (R3 : Main.log (snd (Main.translate_text_body p text s2'))
               = Main.log st ++ ((ev1 ++ [Sleep 4] ++ ev2) ++ [Sleep 4] ++ ev3)).
  { rewrite L3. simpl. rewrite R2, <- !app_assoc. reflexivity. }
  assert (M : Main.translation_cache st
              ⊆ Main.translation_cache
                  (snd (Main.translate_text_body p text s2'))).
  { etransitivity; [exact M1|]. etransitivity; [exact M2|]. exact M3. }
  assert (G3 : Forall (fun e => e = Call text \/ e = Sleep 4)
                 ((ev1 ++ [Sleep 4] ++ ev2) ++ [Sleep 4] ++ ev3)).
  { apply Forall_app. split; [exact G2|]. constructor; auto. }
  assert (Cnt : (ncalls ((ev1 ++ [Sleep 4] ++ ev2) ++ [Sleep 4] ++ ev3) <= 3)%nat
                /\ (length (filter (fun e => negb (is_call e))
                              ((ev1 ++ [Sleep 4] ++ ev2) ++ [Sleep 4] ++ ev3))
                    <= 2)%nat).
  { rewrite !ncalls_app, !filter_app, !length_app, D1, D2, D3.
    unfold ncalls at 2 4. simpl. lia. }
  destruct (Main.translate_text_body p text s2') as [[v|e3] s3];
    cbn [snd] in *; repeat split; auto; apply Cnt.
Qed.

(** ** What a translation leaves behind (master.py, master_2.py) *)

Lemma master2_ncalls_record (m : pystr) (st : Master2.state) :
  ncalls (Master2.log (Master2.record_call m st))
  = Datatypes.S (ncalls (Master2.log st)).
Proof. simpl. rewrite ncalls_app. unfold ncalls at 2. simpl. lia. Qed.

(** X3.  master_2.py: an answer of the provider is stored under the meaning
    itself and the cache file is written; the answer is returned again for
    the same meaning without a provider call, also when the write of the
    cache file failed.  A failure of the provider is not stored: the meaning
    is returned as it is, nothing is written, and the next call for the same
    meaning asks the provider again. *)
Theorem meaning_cache_write_through (p : provider) (d : Master2.disk)
  (m : pystr) (st : Master2.state) :
  Master2.translation_cache st !! m = None ->
  (forall tr, p (ncalls (Master2.log st)) m = Some tr ->
     fst (Master2._translate_meaning p d m st) = tr /\
     Master2.translation_cache (snd (Master2._translate_meaning p d m st))
     = <[m := tr]> (Master2.translation_cache st) /\
     Master2.cache_file (snd (Master2._translate_meaning p d m st))
     = Master2.write_file (Master2.cache_file st)
         (<[m := tr]> (Master2.translation_cache st))
         (d (length (Master2.writes st))) /\
     forall q d',
       Master2._translate_meaning q d' m
         (snd (Master2._translate_meaning p d m st))
       = (tr, snd (Master2._translate_meaning p d m st))) /\
  (p (ncalls (Master2.log st)) m = None ->
     fst (Master2._translate_meaning p d m st) = m /\
     Master2.translation_cache (snd (Master2._translate_meaning p d m st))
     = Master2.translation_cache st /\
     Master2.cache_file (snd (Master2._translate_meaning p d m st))
     = Master2.cache_file st /\
     Master2.writes (snd (Master2._translate_meaning p d m st))
     = Master2.writes st /\
     forall q d',
       fst (Master2._translate_meaning q d' m
              (snd (Master2._translate_meaning p d m st)))
       = default m (q (Datatypes.S (ncalls (Master2.log st))) m)).
Proof.
  intros Hc.
  assert (E : Master2._translate_meaning p d m st
              = match p (ncalls (Master2.log st)) m with
                | None => (m, Master2.record_call m st)
                | Some tr =>
                    (tr, Master2._save_translation_cache d
                           (Master2.cache_put m tr (Master2.record_call m st)))
                end)
    by (unfold Master2._translate_meaning; now rewrite Hc).
  rewrite E. split.
  - intros tr ->. cbn [fst snd]. split; [reflexivity|].
    split; [reflexivity|]. split; [reflexivity|].
    intros q d'. unfold Master2._translate_meaning. simpl.
    now rewrite lookup_insert_eq.
  - intros ->. cbn [fst snd]. split; [reflexivity|].
    split; [reflexivity|]. split; [reflexivity|]. split; [reflexivity|].
    intros q d'. unfold Master2._translate_meaning.
    change (Master2.translation_cache (Master2.record_call m st))
      with (Master2.translation_cache st).
    rewrite Hc, master2_ncalls_record. now destruct (q _ m).
Qed.

Lemma meaning_cache_write_through_witness :
  fst (Master2._translate_meaning Sample.hindi Sample.first_write_fails
         (lit "cat") Sample.master2_0) = [0x939; 0x93f] /\
  Master2.cache_file
    (snd (Master2._translate_meaning Sample.hindi Sample.first_write_fails
            (lit "cat") Sample.master2_0)) = Malformed /\
  Master2._translate_meaning Sample.down Sample.sound (lit "cat")
    (snd (Master2._translate_meaning Sample.hindi Sample.first_write_fails
            (lit "cat") Sample.master2_0))
  = ([0x939; 0x93f],
     snd (Master2._translate_meaning Sample.hindi Sample.first_write_fails
            (lit "cat") Sample.master2_0)).
Proof.
  destruct (proj1 (meaning_cache_write_through Sample.hindi
                     Sample.first_write_fails (lit "cat") Sample.master2_0
                     eq_refl) [0x939; 0x93f] eq_refl) as (A & _ & C & D).
  split; [exact A|]. split; [exact C|]. apply D.
Defined.



(** ** What an entry sends to the provider (master.py, master_2.py) *)

(** One call of [_translate_meaning]: the meaning is sent when it is not a
    key of the cache, the cache only grows. *)
Lemma master2_translate_meaning_calls (p : provider) (d : Master2.disk)
  (m : pystr) (st : Master2.state) :
  calls (Master2.log (snd (Master2._translate_meaning p d m st)))
  = calls (Master2.log st)
    ++ match Master2.translation_cache st !! m with
       | Some _ => []
       | None => [m]
       end /\
  Master2.translation_cache st
  ⊆ Master2.translation_cache (snd (Master2._translate_meaning p d m st)).
Proof.
  unfold Master2._translate_meaning.
  destruct (Master2.translation_cache st !! m) eqn:C.
  - simpl. now rewrite app_nil_r.
  - destruct (p _ m); simpl; rewrite calls_app; split; auto.
    now apply insert_subseteq.
Qed.

Lemma master2_translate_meanings_calls (p : provider) (d : Master2.disk)
  (ms : list pystr) (st : Master2.state) :
  exists sent,
    calls (Master2.log (snd (Master2.translate_meanings p d ms st)))
    = calls (Master2.log st) ++ sent /\
    sublist sent ms /\
    (forall m, In m sent -> Master2.translation_cache st !! m = None) /\
    Master2.translation_cache st
    ⊆ Master2.translation_cache (snd (Master2.translate_meanings p d ms st)).
Proof.
  revert st. induction ms as [|m ms IH]; intros st; simpl.
  - exists []. rewrite app_nil_r. repeat split; auto. intros m [].
  - destruct (master2_translate_meaning_calls p d m st) as [E1 M1].
    destruct (Master2._translate_meaning p d m st) as [t s1]. cbn [snd] in *.
    destruct (IH s1) as (sent & E2 & S2 & N2 & M2).
    destruct (Master2.translate_meanings p d ms s1) as [r s2]. cbn [snd] in *.
    assert (N : forall x, In x sent -> Master2.translation_cache st !! x = None).
    { intros x Hx. eapply lookup_weaken_None; [apply N2, Hx|exact M1]. }
    assert (M : Master2.translation_cache st ⊆ Master2.translation_cache s2)
      by (etransitivity; eassumption).
    destruct (Master2.translation_cache st !! m) eqn:C.
    + exists sent. rewrite E2, E1, app_nil_r.
      repeat split; auto. now apply sublist_cons.
    + exists (m :: sent). rewrite E2, E1, <- app_assoc.
      repeat split; auto; [now apply sublist_skip|].
      intros x [<-|Hx]; auto.
Qed.

(** X5.  master_2.py: [_process_single_entry] copies the kanji and kana
    texts as they are and sends to the provider only English glosses of the
    entry: the texts sent are a subsequence of the English meanings, each of
    them absent from the cache when the entry is taken up.  No entry of the
    cache is removed or changed. *)
Theorem only_english_glosses_are_sent (p : provider) (d : Master2.disk)
  (e : entry) (st : Master2.state) :
  out_kanji (fst (Master2._process_single_entry p d e st))
  = map w_text (kanji e) /\
  out_kana (fst (Master2._process_single_entry p d e st))
  = map w_text (kana e) /\
  (exists sent,
     calls (Master2.log (snd (Master2._process_single_entry p d e st)))
     = calls (Master2.log st) ++ sent /\
     sublist sent (english_meanings e) /\
     forall m, In m sent -> Master2.translation_cache st !! m = None) /\
  Master2.translation_cache st
  ⊆ Master2.translation_cache (snd (Master2._process_single_entry p d e st)).
Proof.
  unfold Master2._process_single_entry.
  destruct (master2_translate_meanings_calls p d (english_meanings e) st)
    as (sent & E & S & N & M).
  destruct (Master2.translate_meanings p d _ st) as [r s1]. cbn [fst snd] in *.
  repeat split; auto. exists sent. auto.
Qed.

(** With the provider down, each meaning is looked up in the cache and
    otherwise returned as it is. *)
Lemma master2_translations_down (p : provider) (d : Master2.disk)
  (ms : list pystr) (st : Master2.state) :
  (forall n t, p n t = None) ->
  Master2.translations p d ms st
  = map (fun m => default m (Master2.translation_cache st !! m)) ms /\
  Master2.translation_cache (snd (Master2.translate_meanings p d ms st))
  = Master2.translation_cache st /\
  Master2.cache_file (snd (Master2.translate_meanings p d ms st))
  = Master2.cache_file st /\
  Master2.writes (snd (Master2.translate_meanings p d ms st))
  = Master2.writes st.
Proof.
  intros Hp. revert st. induction ms as [|m ms IH]; intros st; simpl; [auto|].
  assert (T : Master2._translate_meaning p d m st
              = (default m (Master2.translation_cache st !! m),
                 match Master2.translation_cache st !! m with
                 | Some _ => st
                 | None => Master2.record_call m st
                 end)).
  { unfold Master2._translate_meaning.
    destruct (Master2.translation_cache st !! m); [reflexivity|].
    now rewrite Hp. }
  rewrite T.
  set (s1 := match Master2.translation_cache st !! m with
             | Some _ => st
             | None => Master2.record_call m st
             end).
  assert (F : Master2.translation_cache s1 = Master2.translation_cache st /\
              Master2.cache_file s1 = Master2.cache_file st /\
              Master2.writes s1 = Master2.writes st)
    by (unfold s1; destruct (Master2.translation_cache st !! m); auto).
  destruct F as (F1 & F2 & F3).
  destruct (IH s1) as (I1 & I2 & I3 & I4).
  destruct (Master2.translate_meanings p d ms s1) as [r s2]. cbn [snd] in *.
  rewrite I1, F1. repeat split; congruence.
Qed.

(** X6.  master_2.py: while the provider is down, [_process_single_entry]
    still returns an entry: its meanings are the English glosses
    themselves, each replaced by what the cache holds for it if it is a
    key, without those that are blank.  Nothing is stored or written. *)
Theorem provider_down_keeps_english (p : provider) (d : Master2.disk)
  (e : entry) (st : Master2.state) :
  (forall n t, p n t = None) ->
  meaning (fst (Master2._process_single_entry p d e st))
  = filter (fun t => negb (blank t))
      (map (fun m => default m (Master2.translation_cache st !! m))
         (english_meanings e)) /\
  Master2.translation_cache (snd (Master2._process_single_entry p d e st))
  = Master2.translation_cache st /\
  Master2.cache_file (snd (Master2._process_single_entry p d e st))
  = Master2.cache_file st /\
  Master2.writes (snd (Master2._process_single_entry p d e st))
  = Master2.writes st.
Proof.
  intros Hp. unfold Master2._process_single_entry.
  destruct (master2_translations_down p d (english_meanings e) st Hp)
    as (T & C & F & W).
  pose proof (master2_translate_meanings p d (english_meanings e) st) as E.
  destruct (Master2.translate_meanings p d _ st) as [r s1]. cbn [fst snd] in *.
  rewrite E, T. auto.
Qed.

Lemma provider_down_keeps_english_witness :
  meaning (fst (Master2._process_single_entry Sample.down Sample.sound
                  Sample.neko Sample.master2_0))
  = filter (fun t => negb (blank t))
      (map (fun m => default m
                       (Master2.translation_cache Sample.master2_0 !! m))
         (english_meanings Sample.neko)).
Proof.
  apply (provider_down_keeps_english Sample.down Sample.sound Sample.neko
           Sample.master2_0).
  reflexivity.
Defined.

(** ** master.py and master_2.py side by side *)





(** ** Whole runs of master_2.py *)

Lemma process_batch_length (p : provider) (d : Master2.disk)
  (es : list entry) (st : Master2.state) :
  length (fst (Master2.process_batch p d es st)) = length es.
Proof.
  revert st. induction es as [|e es IH]; intros st; simpl; [reflexivity|].
  destruct (Master2._process_single_entry p d e st) as [o s1].
  specialize (IH s1). destruct (Master2.process_batch p d es s1) as [os s2].
  simpl in *. now rewrite IH.
Qed.

Lemma process_batch_cache_grows (p : provider) (d : Master2.disk)
  (es : list entry) (st : Master2.state) :
  Master2.translation_cache st
  ⊆ Master2.translation_cache (snd (Master2.process_batch p d es st)).
Proof.
  revert st. induction es as [|e es IH]; intros st; simpl; [reflexivity|].
  unfold Master2._process_single_entry.
  destruct (master2_translate_meanings_calls p d (english_meanings e) st)
    as (sent & _ & _ & _ & M).
  destruct (Master2.translate_meanings p d _ st) as [r s1]. cbn [snd] in M.
  specialize (IH s1). destruct (Master2.process_batch p d es s1) as [os s2].
  cbn [snd] in *. etransitivity; eassumption.
Qed.




(** The loop changes neither the progress record held in memory nor what
    is in the cache, and keeps the data produced so far. *)
Lemma batch_loop_keeps (p : provider) (d : Master2.disk) (words : list entry)
  (batch_size total : Z) (nums : list Z) (st : Master2.state) :
  Master2.processing_progress
    (Master2.batch_loop p d words batch_size total nums st)
  = Master2.processing_progress st /\
  Master2.translation_cache st
  ⊆ Master2.translation_cache
      (Master2.batch_loop p d words batch_size total nums st) /\
  Master2.processed_data st
  `prefix_of` Master2.processed_data
                (Master2.batch_loop p d words batch_size total nums st).
Proof.
  revert st. induction nums as [|n nums IH]; intros st; simpl.
  - repeat split; reflexivity.
  - unfold Master2.batch_body.
    match goal with |- context [Master2.process_batch p d ?es st] =>
      pose proof (process_batch_frame p d es st) as (F1 & _ & _ & F4);
      pose proof (process_batch_cache_grows p d es st) as M;
      destruct (Master2.process_batch p d es st) as [os s1]
    end.
    cbn [snd] in *.
    pose proof (save_batch_progress_spec d os (n + 1) total s1) as [S1 _].
    pose proof (save_batch_progress_core d os (n + 1) total s1) as [S2 S3].
    cbn zeta in S1.
    set (s2 := Master2._save_batch_progress d os (n + 1) total s1) in *.
    assert (K : Master2.processing_progress s2 = Master2.processing_progress st
                /\ Master2.translation_cache st ⊆ Master2.translation_cache s2
                /\ Master2.processed_data st `prefix_of` Master2.processed_data s2).
    { split; [congruence|]. split.
      - inversion S2 as [[Ec El]]. now rewrite Ec.
      - rewrite S1, F1. now apply prefix_app_r. }
    destruct (_ <=? _); [exact K|].
    destruct K as (K1 & K2 & K3). destruct (IH s2) as (I1 & I2 & I3).
    split; [congruence|]. split; etransitivity; eassumption.
Qed.

(** X9.  master_2.py: whatever the input file, the provider and the disk do,
    [process_dictionary] leaves the progress record held in memory as
    [__init__] loaded it (the record is written to the file only), removes
    and changes no entry of the cache, and keeps the data produced so far as
    a prefix of the data it leaves. *)
Theorem process_dictionary_keeps (p : provider) (d : Master2.disk)
  (input_file : file (list entry)) (batch_size max_workers : Z)
  (st : Master2.state) :
  Master2.processing_progress
    (Master2.process_dictionary p d input_file batch_size max_workers st)
  = Master2.processing_progress st /\
  Master2.translation_cache st
  ⊆ Master2.translation_cache
      (Master2.process_dictionary p d input_file batch_size max_workers st) /\
  Master2.processed_data st
  `prefix_of` Master2.processed_data
                (Master2.process_dictionary p d input_file batch_size
                   max_workers st).
Proof.
  assert (Same : forall s : Master2.state,
             Master2.processing_progress s = Master2.processing_progress st ->
             Master2.translation_cache s = Master2.translation_cache st ->
             Master2.processed_data s = Master2.processed_data st ->
             Master2.processing_progress s = Master2.processing_progress st /\
             Master2.translation_cache st ⊆ Master2.translation_cache s /\
             Master2.processed_data st `prefix_of` Master2.processed_data s).
  { intros s -> -> ->. repeat split; reflexivity. }
  unfold Master2.process_dictionary.
  destruct (json_load input_file) as [words|e]; [|now apply Same].
  destruct (batch_size =? 0); [now apply Same|].
  set (total := (Z.of_nat (length words) + batch_size - 1) / batch_size).
  set (start := Master2.get0 _).
  set (st1 := if _ =? total then st else _).
  assert (C : Master2.processing_progress st1 = Master2.processing_progress st
              /\ Master2.translation_cache st1 = Master2.translation_cache st
              /\ Master2.processed_data st1 = Master2.processed_data st)
    by (unfold st1; destruct (_ =? total); auto).
  destruct C as (C1 & C2 & C3).
  destruct (Master2.py_range start total) as [|n nums]; [now apply Same|].
  destruct (max_workers <=? 0); [now apply Same|].
  destruct (batch_loop_keeps p d words batch_size total (n :: nums) st1)
    as (K1 & K2 & K3).
  rewrite <- C1, <- C2, <- C3. auto.
Qed.

(** X10.  master_2.py: a run appends the entries of the words from index
    [processed_batches * batch_size] on, as many as there are, whatever the
    output data already hold: entries are never skipped for being in the
    output already, so a batch whose output was written but whose progress
    record was not is appended once more by the next run. *)
Theorem appended_entries_follow_the_progress_record (p : provider)
  (d : Master2.disk) (words : list entry) (batch_size max_workers : Z)
  (st : Master2.state) :
  0 < batch_size -> 0 < max_workers ->
  0 <= Master2.get0 (Master2.processed_batches (Master2.processing_progress st)) ->
  length (Master2.processed_data
            (Master2.process_dictionary p d (Holds words) batch_size
               max_workers st))
  = (length (Master2.processed_data st)
     + (length words
        - Z.to_nat (Master2.get0
                      (Master2.processed_batches
                         (Master2.processing_progress st)) * batch_size)))%nat.
Proof.
  intros Hb Hw Hs.
  rewrite (process_dictionary_unfold p d words batch_size max_workers st Hb Hw).
  cbn zeta.
  set (total := (Z.of_nat (length words) + batch_size - 1) / batch_size).
  set (start := Master2.get0 _) in *.
  set (st1 := if _ =? total then st else _).
  assert (C : Master2.processed_data st1 = Master2.processed_data st)
    by (unfold st1; destruct (_ =? total); auto).
  rewrite (batch_loop_resumes p d words batch_size total
             (Z.to_nat (total - start)) start st1 Hb eq_refl Hs eq_refl).
  now rewrite length_app, process_batch_length, length_drop, C.
Qed.

Lemma appended_entries_follow_the_progress_record_witness :
  length (Master2.processed_data
            (Master2.process_dictionary Sample.hindi Sample.sound
               (Holds [Sample.neko; Sample.neko; Sample.neko]) 2 4
               Sample.resumed))
  = (length (Master2.processed_data Sample.resumed)
     + (3 - Z.to_nat (1 * 2)))%nat.
Proof.
  apply (appended_entries_follow_the_progress_record Sample.hindi Sample.sound
           [Sample.neko; Sample.neko; Sample.neko] 2 4 Sample.resumed);
    simpl; lia.
Defined.

(** ** Whole runs of master.py *)





(** ** The passes and the batches of index.py *)

Lemma index_translate_text_queue (text : pystr) (st : Index.state) :
  Index.translation_queue st
  `prefix_of` Index.translation_queue (snd (Index.translate_text text st)).
Proof.
  unfold Index.translate_text. destruct (blank text); [reflexivity|].
  destruct (get_content_hash text) as [h|e]; [|reflexivity].
  destruct (Index.translation_cache st !! h); [reflexivity|].
  destruct (any_ascii text); [|reflexivity].
  simpl. now apply prefix_app_r.
Qed.

(** A pass touches neither the cache, its file nor the log, and only adds
    to the queue. *)
Lemma index_pass_frame (data : json) (st : Index.state) :
  Index.translation_cache (snd (Index._process_content data st))
  = Index.translation_cache st /\
  Index.cache_file (snd (Index._process_content data st))
  = Index.cache_file st /\
  Index.log (snd (Index._process_content data st)) = Index.log st /\
  Index.translation_queue st
  `prefix_of` Index.translation_queue (snd (Index._process_content data st)).
Proof.
  apply (index_pass_preserves
           (fun s => Index.translation_cache s = Index.translation_cache st /\
                     Index.cache_file s = Index.cache_file st /\
                     Index.log s = Index.log st /\
                     Index.translation_queue st
                     `prefix_of` Index.translation_queue s)).
  - intros t _ s (E1 & E2 & E3 & E4).
    destruct (index_translate_text_frame t s) as (F1 & F2 & F3).
    pose proof (index_translate_text_queue t s) as F4.
    repeat split; try congruence. etransitivity; eassumption.
  - repeat split; reflexivity.
Qed.

(** X12.  index.py: a pass of [_process_content] over any document, whether
    it returns or raises, calls the provider nowhere and leaves the cache
    and the cache file as they are; all it does to the state is to put work
    units at the end of the queue, and it takes none off. *)
Theorem pass_only_queues (data : json) (st : Index.state) :
  calls (Index.log (snd (Index._process_content data st)))
  = calls (Index.log st) /\
  Index.translation_cache (snd (Index._process_content data st))
  = Index.translation_cache st /\
  Index.cache_file (snd (Index._process_content data st))
  = Index.cache_file st /\
  exists queued,
    Index.translation_queue (snd (Index._process_content data st))
    = Index.translation_queue st ++ queued.
Proof.
  destruct (index_pass_frame data st) as (C & F & L & [queued Q]).
  rewrite L. repeat split; auto. exists queued. exact Q.
Qed.

(** What [batch_translate] leaves, whatever the provider does. *)
Lemma batch_translate_log (p : provider) (texts : list pystr)
  (st : Index.state) :
  Index.translation_cache (snd (Index.batch_translate p texts st))
  = Index.translation_cache st /\
  Index.cache_file (snd (Index.batch_translate p texts st))
  = Index.cache_file st /\
  Index.translation_queue (snd (Index.batch_translate p texts st))
  = Index.translation_queue st /\
  match fst (Index.batch_translate p texts st) with
  | Ok trs =>
      length trs = length texts /\
      Index.log (snd (Index.batch_translate p texts st))
      = Index.log st ++ map Call texts
  | Raise e =>
      e = ProviderError /\
      exists k, (k < length texts)%nat /\
        Index.log (snd (Index.batch_translate p texts st))
        = Index.log st ++ map Call (take (Datatypes.S k) texts)
  end.
Proof.
  revert st. induction texts as [|t texts IH]; intros st;
    cbn [Index.batch_translate].
  - simpl. rewrite app_nil_r. auto.
  - destruct (p (ncalls (Index.log st)) t) as [tr|].
    + destruct (IH (Index.record (Call t) st)) as (C & F & Q & R).
      unfold bind.
      destruct (Index.batch_translate p texts (Index.record (Call t) st))
        as [[trs|e] st']; cbn [fst snd] in *.
      * destruct R as [L R]. simpl. rewrite R, L. simpl.
        rewrite <- app_assoc. auto.
      * destruct R as (-> & k & Hk & R). repeat split; auto.
        exists (Datatypes.S k). split; [simpl; lia|].
        rewrite R. simpl. now rewrite <- app_assoc.
    + cbn [fst snd]. repeat split; auto.
      exists 0%nat. split; [simpl; lia|]. reflexivity.
Qed.

(** X13.  index.py: [_process_batch] stores all the translations of a batch
    or none.  When the provider fails on one of the texts, the calls made
    are those on the texts up to that one, the exception is raised, and the
    cache and its file are as before: the answers obtained for the texts
    before are lost.  When it returns, every text of the batch has been sent
    once, in order, every fingerprint of the batch is a key of the cache,
    and the cache file holds the cache. *)
Theorem process_batch_all_or_nothing (p : provider)
  (batch : list (pystr * pystr)) (st : Index.state) :
  match Index._process_batch p batch st with
  | (Ok _, st') =>
      Index.log st' = Index.log st ++ map Call (map fst batch) /\
      (forall t h, In (t, h) batch -> Index.cached h st') /\
      (forall k, Index.cached k st -> Index.cached k st') /\
      Index.cache_file st' = Holds (Index.translation_cache st')
  | (Raise e, st') =>
      e = ProviderError /\
      Index.translation_cache st' = Index.translation_cache st /\
      Index.cache_file st' = Index.cache_file st /\
      exists k, (k < length batch)%nat /\
        Index.log st'
        = Index.log st ++ map Call (take (Datatypes.S k) (map fst batch))
  end.
Proof.
  unfold Index._process_batch, bind.
  destruct (batch_translate_log p (map fst batch) st) as (C & F & Q & R).
  destruct (Index.batch_translate p (map fst batch) st) as [[trs|e] st1];
    cbn [fst snd] in *.
  - destruct R as [L R]. rewrite length_map in L.
    destruct (store_spec trs (map snd batch) st1) as (M1 & M2 & _);
      [now rewrite length_map|].
    assert (Lg : forall a b s, Index.log (Index.store a b s) = Index.log s).
    { induction a as [|x a IH]; intros [|y b] s; simpl; auto.
      now rewrite IH. }
    simpl. rewrite Lg. repeat split; auto.
    + intros t h Hin. apply (M2 h), in_map_iff. exists (t, h). auto.
    + intros k Hk. apply M1. unfold Index.cached in *. now rewrite C.
  - destruct R as (-> & k & Hk & R). rewrite length_map in Hk.
    repeat split; auto. exists k. auto.
Qed.

(** ** The shape of a translated document *)












(** ** The two passes of index.py on any cache *)



(** ** Every work unit is sent once (index.py) *)




Section Once.
Variable p : provider.
Variable batch_size : Z.
Hypothesis p_total : forall n t, is_Some (p n t).








End Once.



(** ** The workers when the provider is down (index.py) *)


Section Down.
Variable p : provider.
Variable batch_size : Z.
Hypothesis p_down : forall n t, p n t = None.
Variable c : gmap pystr pystr.
Variable cf : file (gmap pystr pystr).








End Down.



(** ** The files that [process_directory] takes (main.py, index.py) *)










Example term_bank_directory :
  snd (Main.process_directory Sample.hindi
         [(lit "tag_bank_1.json", Holds Sample.term_bank);
          (lit "term_bank_1.json", Holds Sample.term_bank);
          (lit "index.json", Holds Sample.term_bank)]
         (fun _ => Missing) Sample.main0) (lit "term_bank_1.json")
  = Holds (map_doc (fun _ => [0x939; 0x93f]) Sample.term_bank).
Proof. vm_compute. reflexivity. Qed.

(** ** Walks that stop at the first exception (main.py) *)

Section Stops.
Context {S : Type}.
Variables P Q : S -> Prop.
Hypothesis PQ : forall s, P s -> Q s.

Lemma stops_ret {A} (a : A) : stops P Q (ret a).
Proof. intros st H. exact H. Qed.

Lemma stops_raise {A} (e : exn) : stops P Q (@raise S A e).
Proof. intros st H. simpl. now apply PQ. Qed.

Lemma stops_bind {A B} (m : M S A) (k : A -> M S B) :
  stops P Q m -> (forall a, stops P Q (k a)) -> stops P Q (bind m k).
Proof.
  intros Hm Hk st H. unfold bind. specialize (Hm st H).
  destruct (m st) as [[a|e] st']; [now apply Hk|exact Hm].
Qed.

Lemma stops_each_in_place
  (f : json -> (json -> list json) -> M S (bool * json)) (todo : list json) :
  (forall item, In item todo -> forall around, stops P Q (f item around)) ->
  forall done modified, stops P Q (each_in_place f done modified todo).
Proof.
  induction todo as [|item rest IH]; intros H done modified; simpl.
  - apply stops_ret.
  - apply stops_bind; [apply H; now left|].
    intros r. apply IH. intros x Hx. apply H. now right.
Qed.

Lemma stops_member_in_place
  (f : json -> (json -> list (pystr * json)) -> M S (bool * json))
  (key : pystr) (ms : list (pystr * json)) :
  (forall v, member key ms = Some v -> forall around,
     stops P Q (f v around)) ->
  forall before, stops P Q (member_in_place f key before ms).
Proof.
  induction ms as [|[k v] ms IH]; intros H before; simpl.
  - apply stops_ret.
  - simpl in H. destruct (bool_decide (k = key)).
    + apply stops_bind; [now apply H|]. intros r. apply stops_ret.
    + now apply IH.
Qed.

End Stops.

Section MainStops.
Variable p : provider.
Variables P Q : Main.state -> Prop.
Hypothesis PQ : forall s, P s -> Q s.
Hypothesis write_keeps : forall d, stops P Q (Main.update_json_file d).

Lemma main_translate_item_stops (item : json) :
  (forall t, In t (item_leaves item) -> stops P Q (Main.translate_text p t)) ->
  forall ctx, stops P Q (Main.translate_item p item ctx).
Proof.
  induction item as [item IH] using item_induction. intros H ctx.
  destruct item as [| | | | |ms]; try (now apply stops_ret).
  cbn [Main.translate_item]. rewrite item_leaves_obj in H.
  apply stops_bind; [|intros r; now apply stops_ret].
  apply stops_member_in_place. intros v Hv around.
  rewrite Hv in H.
  destruct v as [| | |s|subs|]; try (now apply stops_ret).
  - apply stops_bind; [apply H; now left|].
    intros r. now apply stops_ret.
  - apply stops_bind; [|].
    + apply stops_each_in_place. intros sub Hsub around_sub.
      apply (IH ms (lit "content") subs sub eq_refl Hv Hsub).
      intros t Ht. apply H, in_flat_map. eauto.
    + intros r.
      apply stops_bind; [|intros u; now apply stops_ret].
      destruct (fst r); [apply write_keeps|now apply stops_ret].
Qed.

Lemma main_process_content_item_stops (content_item : json) :
  (forall t, In t (item_leaves content_item) ->
     stops P Q (Main.translate_text p t)) ->
  forall ctx, stops P Q (Main.process_content_item p content_item ctx).
Proof.
  intros H ctx. unfold Main.process_content_item, Main.translate_content_list.
  apply stops_bind; [|intros r; now apply stops_ret].
  apply stops_bind; [|].
  - apply stops_each_in_place. intros item [<-|[]] around.
    now apply main_translate_item_stops.
  - intros r. apply stops_bind; [|intros u; now apply stops_ret].
    destruct (fst r); [apply write_keeps|now apply stops_ret].
Qed.

Lemma main_process_item_stops (item : json) :
  (forall t, In t (flat_map item_leaves (content_items item)) ->
     stops P Q (Main.translate_text p t)) ->
  forall ctx, stops P Q (Main.process_item p item ctx).
Proof.
  intros H ctx. unfold Main.process_item. unfold content_items in H.
  destruct (is_structured_content item) as [[|]|e];
    try (first [now apply stops_ret | now apply stops_raise]).
  destruct item as [| | | | |ms]; try (now apply stops_ret).
  apply stops_bind; [|].
  - destruct (member (lit "content") ms) as [[| | | |cs|]|];
      try (now apply stops_ret).
    apply stops_bind; [|intros r; now apply stops_ret].
    apply stops_each_in_place. intros ci Hci around.
    apply main_process_content_item_stops.
    intros t Ht. apply H, in_flat_map. eauto.
  - intros item'.
    apply stops_bind; [apply write_keeps|].
    intros u. now apply stops_ret.
Qed.

Lemma main_process_entry_stops (entry : json) :
  (forall t, In t (entry_leaves entry) -> stops P Q (Main.translate_text p t)) ->
  forall ctx, stops P Q (Main.process_entry p entry ctx).
Proof.
  intros H ctx. unfold Main.process_entry.
  unfold entry_leaves, entry_items in H.
  destruct (sixth_field entry) as [[items|]|e];
    try (first [now apply stops_ret | now apply stops_raise]).
  apply stops_bind; [|intros r; now apply stops_ret].
  apply stops_each_in_place. intros item Hitem around.
  apply main_process_item_stops.
  intros t Ht. apply H, in_flat_map. eauto.
Qed.

(** The walk of main.py over a document: it goes from leaf to leaf as long
    as [translate_text] returns, and ends where it raises. *)
Lemma main_process_entries_stops (data : json) :
  (forall t, In t (doc_leaves data) -> stops P Q (Main.translate_text p t)) ->
  stops P Q (Main.process_entries p data).
Proof.
  intros H. unfold Main.process_entries. unfold doc_leaves, doc_entries in H.
  destruct (iterate data) as [entries|e]; [|now apply stops_raise].
  apply stops_bind; [|intros r; now apply stops_ret].
  apply stops_each_in_place. intros entry Hentry around.
  apply main_process_entry_stops.
  intros t Ht. apply H, in_flat_map. eauto.
Qed.

End MainStops.



Lemma main_translate_text_down (p : provider) (text : pystr)
  (st : Main.state) :
  (forall n t, p n t = None) ->
  Main.translation_cache (snd (Main.translate_text p text st))
  = Main.translation_cache st /\
  Main.cache_file (snd (Main.translate_text p text st)) = Main.cache_file st /\
  match fst (Main.translate_text p text st) with
  | Ok _ =>
      calls (Main.log (snd (Main.translate_text p text st)))
      = calls (Main.log st)
  | Raise _ =>
      calls (Main.log (snd (Main.translate_text p text st)))
      = calls (Main.log st) \/
      calls (Main.log (snd (Main.translate_text p text st)))
      = calls (Main.log st) ++ [text; text; text]
  end.
Proof.
  intros Pd.
  assert (Quiet : forall v, Main.translate_text_body p text st = (Ok v, st) ->
            Main.translation_cache (snd (Main.translate_text p text st))
            = Main.translation_cache st /\
            Main.cache_file (snd (Main.translate_text p text st))
            = Main.cache_file st /\
            match fst (Main.translate_text p text st) with
            | Ok _ =>
                calls (Main.log (snd (Main.translate_text p text st)))
                = calls (Main.log st)
            | Raise _ =>
                calls (Main.log (snd (Main.translate_text p text st)))
                = calls (Main.log st) \/
                calls (Main.log (snd (Main.translate_text p text st)))
                = calls (Main.log st) ++ [text; text; text]
            end).
  { intros v E. rewrite (main_retry_ok p text v st st E). simpl. auto. }
  destruct (blank text) eqn:Bk.
  { apply (Quiet text). now apply main_body_blank. }
  destruct (get_content_hash text) as [h|e] eqn:Hh.
  2:{ assert (E : forall s, Main.translate_text_body p text s = (Raise e, s))
        by (intros s; unfold Main.translate_text_body; now rewrite Bk, Hh).
      unfold Main.translate_text, Tenacity.retry. cbn [Tenacity.attempts].
      rewrite !E. cbn [fst snd]. simpl. rewrite !calls_app. simpl.
      rewrite !app_nil_r. auto. }
  destruct (Main.translation_cache st !! h) as [v|] eqn:C.
  { apply (Quiet v). now apply (main_body_hit p text h v). }
  destruct (isascii text) eqn:A.
  2:{ apply (Quiet text). unfold Main.translate_text_body.
      now rewrite Bk, Hh, C, A. }
  pose proof (main_body_miss p text h st Bk Hh C A) as B1.
  set (s1 := Main.record (Sleep 4) (Main.record (Call text) st)).
  pose proof (main_body_after p text h st s1 [Call text; Sleep 4]
                Bk Hh C A eq_refl) as B2.
  set (s2 := Main.record (Sleep 4) (Main.record (Call text) s1)).
  pose proof (main_body_after p text h st s2
                [Call text; Sleep 4; Call text; Sleep 4]
                Bk Hh C A eq_refl) as B3.
  assert (L1 : Main.log s1 = Main.log st ++ [Call text; Sleep 4])
    by (simpl; rewrite <- app_assoc; reflexivity).
  assert (L2 : Main.log s2
               = Main.log st ++ [Call text; Sleep 4; Call text; Sleep 4])
    by (simpl; rewrite <- !app_assoc; reflexivity).
  specialize (B2 L1). specialize (B3 L2).
  rewrite Pd in B1, B2, B3.
  unfold Main.translate_text, Tenacity.retry. cbn [Tenacity.attempts].
  change (Tenacity.wait_exponential 1 4 10 1) with 4.
  change (Tenacity.wait_exponential 1 4 10 (1 + 1)) with 4.
  rewrite B1. fold s1. rewrite B2. fold s2. rewrite B3.
  cbn [fst snd]. split; [reflexivity|]. split; [reflexivity|]. right.
  simpl. rewrite <- !app_assoc, calls_app. reflexivity.
Qed.

(** X19.  main.py: while the provider is down, [process_file] ends at the
    first leaf that has to be translated: on any document it makes no
    provider call at all, or the three calls of one [translate_text] on one
    leaf of the document and no other; the cache and its file are left as
    they were. *)
Theorem main_provider_down_stops_at_first_leaf (p : provider) (data : json)
  (output_f : file json) (st : Main.state) :
  (forall n t, p n t = None) ->
  Main.translation_cache (fst (Main.process_file p (Holds data) output_f st))
  = Main.translation_cache st /\
  Main.cache_file (fst (Main.process_file p (Holds data) output_f st))
  = Main.cache_file st /\
  (calls (Main.log (fst (Main.process_file p (Holds data) output_f st)))
   = calls (Main.log st) \/
   exists t, In t (doc_leaves data) /\
     calls (Main.log (fst (Main.process_file p (Holds data) output_f st)))
     = calls (Main.log st) ++ [t; t; t]).
Proof.
  intros Pd.
  set (P := Main.untouched (Main.translation_cache st) (Main.cache_file st)
              (calls (Main.log st))).
  set (Q := fun s : Main.state =>
              Main.translation_cache s = Main.translation_cache st /\
              Main.cache_file s = Main.cache_file st /\
              (calls (Main.log s) = calls (Main.log st) \/
               exists t, In t (doc_leaves data) /\
                 calls (Main.log s) = calls (Main.log st) ++ [t; t; t])).
  assert (PQ : forall s, P s -> Q s).
  { intros s (H1 & H2 & H3). repeat split; auto. }
  assert (W : stops P Q (Main.process_entries p data)).
  { apply main_process_entries_stops; [exact PQ| |].
    - intros d s Hs. now apply untouched_record.
    - intros t Ht s (H1 & H2 & H3).
      destruct (main_translate_text_down p t s Pd) as (T1 & T2 & T3).
      destruct (Main.translate_text p t s) as [[v|x] s']; cbn [fst snd] in *.
      + repeat split; congruence.
      + split; [congruence|]. split; [congruence|].
        destruct T3 as [T3|T3]; [left; congruence|].
        right. exists t. split; [exact Ht|]. congruence. }
  assert (P0 : P st) by (repeat split).
  specialize (W st P0).
  unfold Main.process_file. cbn [json_load fst].
  destruct (Main.process_entries p data st) as [[v|x] s']; cbn [snd].
  - now apply PQ.
  - exact W.
Qed.

Lemma main_provider_down_stops_at_first_leaf_witness :
  calls (Main.log (fst (Main.process_file Sample.down (Holds Sample.term_bank)
                          Missing Sample.main0)))
  = calls (Main.log Sample.main0) \/
  exists t, In t (doc_leaves Sample.term_bank) /\
    calls (Main.log (fst (Main.process_file Sample.down
                            (Holds Sample.term_bank) Missing Sample.main0)))
    = calls (Main.log Sample.main0) ++ [t; t; t].
Proof.
  apply (main_provider_down_stops_at_first_leaf Sample.down Sample.term_bank
           Missing Sample.main0).
  reflexivity.
Defined.

(** ** The document that main.py writes from a cache that has every leaf *)



Section MainGives.
Variable p : provider.
Variable c : gmap pystr pystr.
Variable cf : file (gmap pystr pystr).
Variable k : list pystr.













End MainGives.



(** ** Disk faults and what is translated (master_2.py) *)

Section TwoDisks.
Variable p : provider.
Variables d d' : Master2.disk.

Lemma translate_meaning_two_disks (m : pystr) (st st' : Master2.state) :
  Master2.core st = Master2.core st' ->
  fst (Master2._translate_meaning p d m st)
  = fst (Master2._translate_meaning p d' m st') /\
  Master2.core (snd (Master2._translate_meaning p d m st))
  = Master2.core (snd (Master2._translate_meaning p d' m st')).
Proof.
  unfold Master2.core. intros E. inversion E as [[Ec El]].
  unfold Master2._translate_meaning. rewrite Ec, El.
  destruct (Master2.translation_cache st' !! m); [auto|].
  destruct (p _ m); simpl; rewrite ?Ec, ?El; auto.
Qed.

Lemma translate_meanings_two_disks (ms : list pystr)
  (st st' : Master2.state) :
  Master2.core st = Master2.core st' ->
  fst (Master2.translate_meanings p d ms st)
  = fst (Master2.translate_meanings p d' ms st') /\
  Master2.core (snd (Master2.translate_meanings p d ms st))
  = Master2.core (snd (Master2.translate_meanings p d' ms st')).
Proof.
  revert st st'. induction ms as [|m ms IH]; intros st st' E; simpl; [auto|].
  destruct (translate_meaning_two_disks m st st' E) as [E1 E2].
  destruct (Master2._translate_meaning p d m st) as [t s1].
  destruct (Master2._translate_meaning p d' m st') as [t' s1'].
  simpl in E1, E2. subst t'.
  destruct (IH s1 s1' E2) as [E3 E4].
  destruct (Master2.translate_meanings p d ms s1) as [r s2].
  destruct (Master2.translate_meanings p d' ms s1') as [r' s2'].
  simpl in *. subst r'. auto.
Qed.

Lemma process_batch_two_disks (es : list entry) (st st' : Master2.state) :
  Master2.core st = Master2.core st' ->
  fst (Master2.process_batch p d es st)
  = fst (Master2.process_batch p d' es st') /\
  Master2.core (snd (Master2.process_batch p d es st))
  = Master2.core (snd (Master2.process_batch p d' es st')).
Proof.
  revert st st'. induction es as [|e es IH]; intros st st' E; simpl; [auto|].
  unfold Master2._process_single_entry.
  destruct (translate_meanings_two_disks (english_meanings e) st st' E)
    as [E1 E2].
  destruct (Master2.translate_meanings p d _ st) as [r s1].
  destruct (Master2.translate_meanings p d' _ st') as [r' s1'].
  simpl in E1, E2. subst r'.
  destruct (IH s1 s1' E2) as [E3 E4].
  destruct (Master2.process_batch p d es s1) as [os s2].
  destruct (Master2.process_batch p d' es s1') as [os' s2'].
  simpl in *. subst os'. auto.
Qed.

Lemma batch_loop_two_disks (words : list entry) (batch_size total : Z)
  (nums : list Z) (st st' : Master2.state) :
  Master2.core st = Master2.core st' ->
  Master2.processed_data st = Master2.processed_data st' ->
  Master2.core (Master2.batch_loop p d words batch_size total nums st)
  = Master2.core (Master2.batch_loop p d' words batch_size total nums st') /\
  Master2.processed_data
    (Master2.batch_loop p d words batch_size total nums st)
  = Master2.processed_data
      (Master2.batch_loop p d' words batch_size total nums st').
Proof.
  revert st st'. induction nums as [|n nums IH]; intros st st' E D; simpl;
    [auto|].
  unfold Master2.batch_body.
  set (es := Master2.py_slice words _ _).
  destruct (process_batch_two_disks es st st' E) as [E1 E2].
  pose proof (process_batch_frame p d es st) as (F1 & _).
  pose proof (process_batch_frame p d' es st') as (F1' & _).
  destruct (Master2.process_batch p d es st) as [os s1].
  destruct (Master2.process_batch p d' es st') as [os' s1'].
  cbn [fst snd] in *. subst os'.
  pose proof (save_batch_progress_spec d os (n + 1) total s1) as [S1 _].
  pose proof (save_batch_progress_spec d' os (n + 1) total s1') as [S1' _].
  pose proof (save_batch_progress_core d os (n + 1) total s1) as [S2 _].
  pose proof (save_batch_progress_core d' os (n + 1) total s1') as [S2' _].
  cbn zeta in S1, S1'.
  set (s2 := Master2._save_batch_progress d os (n + 1) total s1) in *.
  set (s2' := Master2._save_batch_progress d' os (n + 1) total s1') in *.
  assert (K : Master2.core s2 = Master2.core s2' /\
              Master2.processed_data s2 = Master2.processed_data s2')
    by (split; congruence).
  destruct K as [K1 K2].
  destruct (_ <=? _); [auto|]. now apply IH.
Qed.

End TwoDisks.

(** X21.  master_2.py: the faults of the disk are swallowed and change only
    the files.  Run on two disks that fail in different ways, or not at all,
    [process_dictionary] makes the same provider calls, leaves the same
    cache in memory and produces the same output entries. *)
Theorem disk_faults_change_only_the_files (p : provider)
  (d d' : Master2.disk) (input_file : file (list entry))
  (batch_size max_workers : Z) (st : Master2.state) :
  Master2.processed_data
    (Master2.process_dictionary p d input_file batch_size max_workers st)
  = Master2.processed_data
      (Master2.process_dictionary p d' input_file batch_size max_workers st) /\
  Master2.translation_cache
    (Master2.process_dictionary p d input_file batch_size max_workers st)
  = Master2.translation_cache
      (Master2.process_dictionary p d' input_file batch_size max_workers st) /\
  Master2.log
    (Master2.process_dictionary p d input_file batch_size max_workers st)
  = Master2.log
      (Master2.process_dictionary p d' input_file batch_size max_workers st).
Proof.
  assert (Same : forall s s' : Master2.state,
             Master2.core s = Master2.core s' ->
             Master2.processed_data s = Master2.processed_data s' ->
             Master2.processed_data s = Master2.processed_data s' /\
             Master2.translation_cache s = Master2.translation_cache s' /\
             Master2.log s = Master2.log s').
  { intros s s' C D. inversion C. auto. }
  unfold Master2.process_dictionary.
  destruct (json_load input_file) as [words|e]; [|now apply Same].
  destruct (batch_size =? 0); [now apply Same|].
  set (total := (Z.of_nat (length words) + batch_size - 1) / batch_size).
  set (start := Master2.get0 _).
  set (st1 := if _ =? total then st else _).
  set (st1' := if _ =? total then st else _).
  assert (C : Master2.core st1 = Master2.core st1' /\
              Master2.processed_data st1 = Master2.processed_data st1')
    by (unfold st1, st1'; destruct (_ =? total); auto).
  destruct C as [C1 C2].
  destruct (Master2.py_range start total) as [|n nums]; [now apply Same|].
  destruct (max_workers <=? 0); [now apply Same|].
  destruct (batch_loop_two_disks p d d' words batch_size total (n :: nums)
              st1 st1' C1 C2) as [B1 B2].
  now apply Same.
Qed.

(** ** What the workers keep, whatever the provider does (index.py) *)

Section PoolKeeps.
Variable p : provider.
Variable batch_size : Z.
Variable Inv : Index.state -> Prop.
Hypothesis batch_keeps :
  forall batch s, Inv s -> Inv (snd (Index._process_batch p batch s)).
Hypothesis queue_keeps : forall q s, Inv s -> Inv (Index.set_queue q s).






End PoolKeeps.


(** ** The cache file of master.py and master_2.py *)




(** ** main.py and index.py side by side *)




